(** * Meeting Summarizer API: a shallow embedding of backend/main.py

    The backend is a FastAPI application with four handlers: [health],
    [summarize], [upload_and_summarize] and [send_email].  The handlers talk
    to two external services, the generative-model client and an SMTP server.
    Both are modelled by a record of oracles ([World]); every call a handler
    makes is recorded in a trace of [Event]s, so that statements such as
    "no connection is attempted" are statements about the trace.

    Python values are modelled as follows:
    - [str] is a list of Unicode code points ([list N]);
    - [bytes] is a [list byte];
    - [os.environ] is a finite map from variable names to [str];
    - an exception is a record with its class name, whether it is an
      instance of [Exception], and the text [str(e)] produces;
    - a dict returned as a JSON body is an association list ([json]). *)

From Stdlib Require Import ZArith NArith Strings.Byte Lia.
From Stdlib Require Import DecimalString DecimalPos DecimalN DecimalZ.
From stdpp Require Import gmap strings list.

Open Scope Z_scope.

(** ** Python strings *)

Abbreviation str := (list N).

(** A source literal (all of them are ASCII) as a Python [str]. *)
Definition lit (s : string) : str :=
  (λ a, Ascii.N_of_ascii a) <$> String.list_ascii_of_string s.

(** The escape [\n] of a Python literal. *)
Definition LF : string := String (Ascii.ascii_of_N 10) EmptyString.

(** [str.isspace] for one character, the table of CPython's
    [_PyUnicode_IsWhitespace]. *)
Definition isspace (c : N) : bool :=
  ((9 <=? c) && (c <=? 13) || (28 <=? c) && (c <=? 32)
   || (c =? 133) || (c =? 160) || (c =? 5760)
   || (8192 <=? c) && (c <=? 8202)
   || (c =? 8232) || (c =? 8233) || (c =? 8239) || (c =? 8287)
   || (c =? 12288))%N.

Fixpoint lstrip (s : str) : str :=
  match s with
  | [] => []
  | c :: r => if isspace c then lstrip r else s
  end.

Definition rstrip (s : str) : str := reverse (lstrip (reverse s)).

(** [s.strip()] with no argument. *)
Definition strip (s : str) : str := rstrip (lstrip s).

(** [sep.join(xs)] *)
Fixpoint join (sep : str) (xs : list str) : str :=
  match xs with
  | [] => []
  | [x] => x
  | x :: r => x ++ sep ++ join sep r
  end.

(** ** Python values, truthiness and exceptions *)

Inductive pyval :=
| PNone
| PStr (s : str)
| PInt (z : Z).

(** [bool(v)] *)
Definition truthy (v : pyval) : bool :=
  match v with
  | PNone => false
  | PStr s => negb (bool_decide (s = []))
  | PInt z => negb (z =? 0)
  end.

(** [all(xs)] *)
Definition all_ (xs : list pyval) : bool := forallb truthy xs.

Record exn := Exn {
  exn_class : string;
  (** [isinstance(e, Exception)]: false for [KeyboardInterrupt],
      [SystemExit] and the like, which derive from [BaseException] only. *)
  exn_is_Exception : bool;
  (** [str(e)] *)
  exn_str : str
}.

Definition RuntimeError (msg : string) : exn := Exn "RuntimeError" true (lit msg).
Definition ValueError (msg : str) : exn := Exn "ValueError" true msg.
Definition AttributeError (msg : string) : exn := Exn "AttributeError" true (lit msg).

(** ** JSON bodies *)

(** The handlers return flat dicts with literal keys and [bool] or [str]
    values. *)
Inductive jval :=
| JBool (b : bool)
| JString (s : str).

Abbreviation json := (list (string * jval)).

(** ** The mail message, as the handler builds it

    [EmailMessage] is recorded at the level of the calls the handler makes:
    the three headers it assigns, the argument of [set_content] and the
    argument and subtype of [add_alternative].  What the email package does
    with these values (header folding, transfer encoding, its own checks of
    header values) is not part of the model. *)

Record EmailMessage := {
  msg_Subject : option str;
  msg_From : str;
  msg_To : str;
  msg_content : str;
  msg_alternative : string * str
}.

(** ** External calls and the effect monad *)

Inductive Event :=
| EvGenerate (model prompt : str)
| EvConnect (host : str) (port : Z)
| EvStartTLS
| EvLogin (user password : str)
| EvSendMessage (m : EmailMessage)
| EvQuit.

(** The object [generate_content] returns: its [text] attribute may be
    absent ([None] here), or hold a Python value. *)
Record GenResponse := { resp_text : option pyval }.

(** What the outside world answers to each call. *)
Record World := {
  generate_content : str → str → exn + GenResponse;
  smtp_connect : str → Z → option exn;
  smtp_starttls : option exn;
  smtp_login : str → str → option exn;
  smtp_send_message : EmailMessage → option exn;
  smtp_quit : option exn
}.

(** A computation yields the calls it made and either a raised exception or
    a value. *)
Definition IO (A : Type) : Type := list Event * (exn + A).

Definition raise {A} (e : exn) : IO A := ([], inl e).

Global Instance IO_ret : MRet IO := λ A a, ([], inr a).

Global Instance IO_bind : MBind IO := λ A B k m,
  match m.2 with
  | inl e => (m.1, inl e)
  | inr a => (m.1 ++ (k a).1, (k a).2)
  end.

(** One external call: record it, then continue with its answer. *)
Definition call {A} (ev : Event) (answer : exn + A) : IO A := ([ev], answer).

Definition call_ (ev : Event) (answer : option exn) : IO unit :=
  ([ev], match answer with Some e => inl e | None => inr tt end).

(** [try: m  except Exception as e: h e] *)
Definition try_except_Exception {A} (m : IO A) (h : exn → IO A) : IO A :=
  match m.2 with
  | inr a => m
  | inl e =>
      if exn_is_Exception e then (m.1 ++ (h e).1, (h e).2) else m
  end.

(** [with acquire as r: body r], where [exit_ r] is [r.__exit__] returning a
    false value: an exception of the body is re-raised after [exit_], unless
    [exit_] raises itself. *)
Definition with_ {R A} (acquire : IO R) (exit_ : R → IO unit) (body : R → IO A) : IO A :=
  r ← acquire;
  let b := body r in
  let x := exit_ r in
  match b.2 with
  | inr a => (b.1 ++ x.1, match x.2 with inl e' => inl e' | inr _ => inr a end)
  | inl e => (b.1 ++ x.1, match x.2 with inl e' => inl e' | inr _ => inl e end)
  end.

(** ** Module level: configuration read at import time *)

Definition digit_val (c : N) : option Z :=
  if ((48 <=? c) && (c <=? 57))%N then Some (Z.of_N c - 48) else None.

(** Decimal digits with single underscores between them. *)
Fixpoint parse_digits (acc : Z) (after_digit : bool) (s : str) : option Z :=
  match s with
  | [] => if after_digit then Some acc else None
  | c :: r =>
      if (c =? 95)%N then
        if after_digit then parse_digits acc false r else None
      else
        match digit_val c with
        | Some d => parse_digits (10 * acc + d) true r
        | None => None
        end
  end.

(** [int(s)] on a [str] of ASCII digits: surrounding whitespace, an optional
    sign, then the digits.  (CPython also accepts the decimal digits of other
    scripts; such a string is a [ValueError] here.) *)
Definition int_ (s : str) : exn + Z :=
  let bad := inl (ValueError (lit "invalid literal for int() with base 10")) in
  match strip s with
  | [] => bad
  | c :: r =>
      if (c =? 45)%N then
        match parse_digits 0 false r with Some z => inr (- z) | None => bad end
      else if (c =? 43)%N then
        match parse_digits 0 false r with Some z => inr z | None => bad end
      else
        match parse_digits 0 false (c :: r) with Some z => inr z | None => bad end
  end.

Record Config := {
  GEMINI_API_KEY : str;
  GEMINI_MODEL : str;
  SMTP_HOST : str;
  SMTP_PORT : Z;
  SMTP_USER : str;
  SMTP_PASS : str;
  FROM_EMAIL : str
}.

(** [os.getenv(name, default)] *)
Definition getenv (env : gmap string str) (name : string) (dflt : str) : str :=
  default dflt (env !! name).

(** The module body of main.py, run once when the process starts, on the
    environment as [load_dotenv] leaves it. *)
Definition startup (env : gmap string str) : exn + Config :=
  match env !! "GEMINI_API_KEY" with
  | Some (c :: k) =>
      match int_ (getenv env "SMTP_PORT" (lit "587")) with
      | inl e => inl e
      | inr port =>
          let user := getenv env "SMTP_USER" (lit "") in
          inr {| GEMINI_API_KEY := c :: k;
                 GEMINI_MODEL := getenv env "GEMINI_MODEL" (lit "gemini-1.5-flash");
                 SMTP_HOST := getenv env "SMTP_HOST" (lit "smtp.gmail.com");
                 SMTP_PORT := port;
                 SMTP_USER := user;
                 SMTP_PASS := getenv env "SMTP_PASS" (lit "");
                 FROM_EMAIL := getenv env "FROM_EMAIL" user |}
      end
  | _ => inl (RuntimeError "GEMINI_API_KEY not set (put it in backend/.env)")
  end.

Definition SYSTEM_PROMPT : str :=
  lit ("You are a professional meeting minutes assistant. "
    +:+ "Your job is to extract and clearly present the most important information from meeting transcripts. "
    +:+ "Always use concise and unambiguous language. "
    +:+ LF +:+ LF +:+ "Required Output Format (in clean Markdown):" +:+ LF
    +:+ "### Overview" +:+ LF
    +:+ "- One or two sentences summarizing the overall purpose of the meeting." +:+ LF +:+ LF
    +:+ "### Key Points" +:+ LF
    +:+ "- Bullet list of the most relevant discussion items (short, factual, no repetition)." +:+ LF +:+ LF
    +:+ "### Decisions" +:+ LF
    +:+ "- List decisions made, including *who* made the decision." +:+ LF +:+ LF
    +:+ "### Action Items" +:+ LF
    +:+ "- Format each action item as: **[Owner]:** [Task] *(Due: [date if mentioned, otherwise 'TBD'])*" +:+ LF +:+ LF
    +:+ "### Risks/Dependencies" +:+ LF
    +:+ "- Mention potential risks, blockers, or dependencies (if none, write 'None identified')." +:+ LF +:+ LF
    +:+ "### Next Steps" +:+ LF
    +:+ "- List follow-up actions or upcoming events." +:+ LF +:+ LF
    +:+ "If the user provides a custom instruction, strictly follow it while keeping output structured and precise.").

(** ** Request models *)

Record SummarizeIn := {
  transcript : str;
  prompt : str
}.

Record EmailIn := {
  summary : str;
  recipients : list str;
  subject : option str
}.

(** ** Handlers *)

Definition health : IO json :=
  mret [("status", JString (lit "ok"))].

(** [getattr(response, "text", None)] *)
Definition getattr_text (response : GenResponse) : pyval :=
  default PNone (resp_text response).

(** [v.strip()] on an arbitrary value: only a [str] has the method. *)
Definition method_strip (v : pyval) : IO str :=
  match v with
  | PStr s => mret (strip s)
  | PNone => raise (AttributeError "'NoneType' object has no attribute 'strip'")
  | PInt _ => raise (AttributeError "'int' object has no attribute 'strip'")
  end.

(** [response.text.strip() if getattr(response, "text", None)
     else "[no summary returned]"] *)
Definition summary_text_of (response : GenResponse) : IO str :=
  if truthy (getattr_text response)
  then method_strip (getattr_text response)
  else mret (lit "[no summary returned]").

Definition user_content_of (instruction text : str) : str :=
  lit "Instruction: " ++ instruction
    ++ lit (LF +:+ LF +:+ "Transcript:" +:+ LF) ++ text.

Definition summarize (cfg : Config) (w : World) (body : SummarizeIn) : IO json :=
  let user_content := user_content_of (prompt body) (transcript body) in
  response ← call (EvGenerate (GEMINI_MODEL cfg) user_content)
                  (generate_content w (GEMINI_MODEL cfg) user_content);
  summary_text ← summary_text_of response;
  mret [("summary", JString summary_text)].

(** ** [bytes.decode("utf-8", errors=...)]

    CPython's decoder.  At an ill-formed sequence the error covers the lead
    byte and the continuation bytes accepted so far (one byte for a bad lead
    byte), and everything that is left when the input ends inside a
    sequence; [errors="strict"] raises there, [errors="ignore"] skips the
    covered bytes and goes on with the next one. *)

Inductive error_handler := Strict | Ignore.

Definition UnicodeDecodeError (msg : string) : exn :=
  Exn "UnicodeDecodeError" true (lit msg).

Definition on_error (errors : error_handler) (msg : string) (rest : exn + str) : exn + str :=
  match errors with
  | Strict => inl (UnicodeDecodeError msg)
  | Ignore => rest
  end.

Definition emit (c : N) (rest : exn + str) : exn + str :=
  match rest with
  | inl e => inl e
  | inr s => inr (c :: s)
  end.

(** [IS_CONTINUATION_BYTE] *)
Definition is_cont (b : N) : bool := ((128 <=? b) && (b <? 192))%N.

Definition cp2 (c c2 : N) : N :=
  N.lor (N.shiftl (N.land c 31) 6) (N.land c2 63).
Definition cp3 (c c2 c3 : N) : N :=
  N.lor (N.lor (N.shiftl (N.land c 15) 12) (N.shiftl (N.land c2 63) 6))
        (N.land c3 63).
Definition cp4 (c c2 c3 c4 : N) : N :=
  N.lor (N.lor (N.lor (N.shiftl (N.land c 7) 18) (N.shiftl (N.land c2 63) 12))
               (N.shiftl (N.land c3 63) 6))
        (N.land c4 63).

(** Second byte of a three-byte sequence: a continuation byte that gives
    neither an overlong form (lead 0xE0) nor a surrogate (lead 0xED). *)
Definition bad2_of3 (c c2 : N) : bool :=
  (negb (is_cont c2) || (if c2 <? 160 then c =? 224 else c =? 237))%N.

(** Second byte of a four-byte sequence: neither overlong (lead 0xF0) nor
    above U+10FFFF (lead 0xF4). *)
Definition bad2_of4 (c c2 : N) : bool :=
  (negb (is_cont c2) || (if c2 <? 144 then c =? 240 else c =? 244))%N.

Definition msg_start : string := "invalid start byte".
Definition msg_cont : string := "invalid continuation byte".
Definition msg_end : string := "unexpected end of data".

Fixpoint utf8_decode (errors : error_handler) (bs : list byte) : exn + str :=
  match bs with
  | [] => inr []
  | b :: r1 =>
    let c := Byte.to_N b in
    if (c <? 128)%N then emit c (utf8_decode errors r1)
    else if (c <? 194)%N then on_error errors msg_start (utf8_decode errors r1)
    else if (c <? 224)%N then
      match r1 with
      | [] => on_error errors msg_end (inr [])
      | b2 :: r2 =>
        let c2 := Byte.to_N b2 in
        if is_cont c2 then emit (cp2 c c2) (utf8_decode errors r2)
        else on_error errors msg_cont (utf8_decode errors r1)
      end
    else if (c <? 240)%N then
      match r1 with
      | [] => on_error errors msg_end (inr [])
      | b2 :: r2 =>
        let c2 := Byte.to_N b2 in
        if bad2_of3 c c2 then on_error errors msg_cont (utf8_decode errors r1)
        else
          match r2 with
          | [] => on_error errors msg_end (inr [])
          | b3 :: r3 =>
            let c3 := Byte.to_N b3 in
            if is_cont c3 then emit (cp3 c c2 c3) (utf8_decode errors r3)
            else on_error errors msg_cont (utf8_decode errors r2)
          end
      end
    else if (c <? 245)%N then
      match r1 with
      | [] => on_error errors msg_end (inr [])
      | b2 :: r2 =>
        let c2 := Byte.to_N b2 in
        if bad2_of4 c c2 then on_error errors msg_cont (utf8_decode errors r1)
        else
          match r2 with
          | [] => on_error errors msg_end (inr [])
          | b3 :: r3 =>
            let c3 := Byte.to_N b3 in
            if negb (is_cont c3) then on_error errors msg_cont (utf8_decode errors r2)
            else
              match r3 with
              | [] => on_error errors msg_end (inr [])
              | b4 :: r4 =>
                let c4 := Byte.to_N b4 in
                if is_cont c4 then emit (cp4 c c2 c3 c4) (utf8_decode errors r4)
                else on_error errors msg_cont (utf8_decode errors r3)
              end
          end
      end
    else on_error errors msg_start (utf8_decode errors r1)
  end.

(** *** The encoder, for reference

    [str.encode("utf-8")] on scalar values, after CPython's encoder.  No
    handler calls it; it says which uploads are well-formed. *)

Definition byte_of (n : N) : byte := default x00 (Byte.of_N n).

Definition utf8_encode_char (c : N) : list byte :=
  if (c <? 128)%N then [byte_of c]
  else if (c <? 2048)%N then
    [byte_of (N.lor 192 (N.shiftr c 6)); byte_of (N.lor 128 (N.land c 63))]
  else if (c <? 65536)%N then
    [byte_of (N.lor 224 (N.shiftr c 12));
     byte_of (N.lor 128 (N.land (N.shiftr c 6) 63));
     byte_of (N.lor 128 (N.land c 63))]
  else
    [byte_of (N.lor 240 (N.shiftr c 18));
     byte_of (N.lor 128 (N.land (N.shiftr c 12) 63));
     byte_of (N.lor 128 (N.land (N.shiftr c 6) 63));
     byte_of (N.lor 128 (N.land c 63))].

Definition utf8_encode (s : str) : list byte := s ≫= utf8_encode_char.

(** A Unicode scalar value: a code point up to U+10FFFF that is not a
    surrogate. *)
Definition is_scalar (c : N) : bool :=
  ((c <? 55296) || (57344 <=? c) && (c <? 1114112))%N.

(** A pure step that may raise, inside a handler. *)
Definition lift {A} (r : exn + A) : IO A := ([], r).

Definition upload_and_summarize (cfg : Config) (w : World)
    (file : list byte) (prompt : str) : IO json :=
  let content_bytes := file in
  transcript ← lift (utf8_decode Ignore content_bytes);
  let user_content := user_content_of prompt transcript in
  response ← call (EvGenerate (GEMINI_MODEL cfg) user_content)
                  (generate_content w (GEMINI_MODEL cfg) user_content);
  summary_text ← summary_text_of response;
  mret [("summary", JString summary_text)].

(** The double quote inside the HTML literal. *)
Definition DQ : string := String (Ascii.ascii_of_N 34) EmptyString.

Definition html_open : str :=
  lit ("<html><body><pre style=" +:+ DQ
         +:+ "font-family: ui-monospace, monospace;" +:+ DQ +:+ ">").
Definition html_close : str := lit "</pre></body></html>".

Definition build_message (cfg : Config) (body : EmailIn) : EmailMessage :=
  {| msg_Subject := subject body;
     msg_From := FROM_EMAIL cfg;
     msg_To := join (lit ", ") (recipients body);
     msg_content := summary body;
     msg_alternative := ("html", html_open ++ summary body ++ html_close) |}.

Definition not_configured : json :=
  [("ok", JBool false); ("error", JString (lit "SMTP not configured on server."))].

(** The [with smtplib.SMTP(...) as s:] block: the constructor connects,
    [__exit__] sends QUIT. *)
Definition smtp_session (cfg : Config) (w : World) (msg : EmailMessage) : IO unit :=
  with_ (call_ (EvConnect (SMTP_HOST cfg) (SMTP_PORT cfg))
               (smtp_connect w (SMTP_HOST cfg) (SMTP_PORT cfg)))
        (λ s, call_ EvQuit (smtp_quit w))
        (λ s,
           _ ← call_ EvStartTLS (smtp_starttls w);
           _ ← call_ (EvLogin (SMTP_USER cfg) (SMTP_PASS cfg))
                     (smtp_login w (SMTP_USER cfg) (SMTP_PASS cfg));
           call_ (EvSendMessage msg) (smtp_send_message w msg)).

Definition send_email (cfg : Config) (w : World) (body : EmailIn) : IO json :=
  if negb (all_ [PStr (SMTP_HOST cfg); PInt (SMTP_PORT cfg); PStr (SMTP_USER cfg);
                 PStr (SMTP_PASS cfg); PStr (FROM_EMAIL cfg)])
  then mret not_configured
  else
    let msg := build_message cfg body in
    returned ← try_except_Exception
      (_ ← smtp_session cfg w msg; mret None)
      (λ e, mret (Some [("ok", JBool false); ("error", JString (exn_str e))]));
    match returned with
    | Some r => mret r
    | None => mret [("ok", JBool true)]
    end.

(** ** The HTTP boundary

    FastAPI validates a request against the declared model before it calls
    the handler, answers 422 when validation fails, 200 with the returned
    dict when the handler returns, and 500 when the handler raises. *)

Inductive Outcome :=
| Response200 (body : json)
| ValidationError422
| ServerFault500 (e : exn).

Definition respond (m : IO json) : list Event * Outcome :=
  (m.1, match m.2 with inl e => ServerFault500 e | inr j => Response200 j end).

(** The JSON body of [POST /email] before validation: [subject] may be
    left out ([None]), or be [null] or a string. *)
Record EmailRaw := {
  raw_summary : str;
  raw_recipients : list str;
  raw_subject : option (option str)
}.

Inductive Request :=
| GET_health
| POST_summarize (body : SummarizeIn)
| POST_upload_and_summarize (file : list byte) (prompt : option str)
| POST_email (raw : EmailRaw).

Section Boundary.

(** [EmailStr]: the validator of pydantic, which answers the normalised
    address of a well-formed one. *)
Variable EmailStr : str → option str.

Definition validate_EmailIn (raw : EmailRaw) : option EmailIn :=
  rs ← mapM EmailStr (raw_recipients raw);
  Some {| summary := raw_summary raw;
          recipients := rs;
          subject := default (Some (lit "Meeting Summary")) (raw_subject raw) |}.

Definition handle (cfg : Config) (w : World) (req : Request) : list Event * Outcome :=
  match req with
  | GET_health => respond health
  | POST_summarize body => respond (summarize cfg w body)
  | POST_upload_and_summarize file prompt =>
      respond (upload_and_summarize cfg w file
                 (default (lit "Summarize the meeting and extract action items.") prompt))
  | POST_email raw =>
      match validate_EmailIn raw with
      | None => ([], ValidationError422)
      | Some body => respond (send_email cfg w body)
      end
  end.

(** A process started in environment [env]: nothing is served when the
    module body raises. *)
Definition serve (env : gmap string str) (w : World) (req : Request)
    : exn + (list Event * Outcome) :=
  match startup env with
  | inl e => inl e
  | inr cfg => inr (handle cfg w req)
  end.

End Boundary.

(** ** Predicates used in the statements *)


(** The test at the head of [send_email]. *)
Definition configured (cfg : Config) : bool :=
  all_ [PStr (SMTP_HOST cfg); PInt (SMTP_PORT cfg); PStr (SMTP_USER cfg);
        PStr (SMTP_PASS cfg); PStr (FROM_EMAIL cfg)].

(** The five environment variables of the SMTP settings. *)
Definition smtp_variables : list string :=
  ["SMTP_HOST"; "SMTP_PORT"; "SMTP_USER"; "SMTP_PASS"; "FROM_EMAIL"].

Definition unset_or_empty (env : gmap string str) (name : string) : Prop :=
  env !! name = None ∨ env !! name = Some [].


Definition ok_true : json := [("ok", JBool true)].
Definition ok_false (e : exn) : json :=
  [("ok", JBool false); ("error", JString (exn_str e))].

Definition sentinel : str := lit "[no summary returned]".

(** ** Concrete inputs used by the examples below *)

Definition response_with (text : option pyval) : GenResponse := {| resp_text := text |}.

(** A provider that answers every prompt with the same object and an SMTP
    server that accepts everything. *)
Definition world_answering (text : option pyval) : World :=
  {| generate_content := λ _ _, inr (response_with text);
     smtp_connect := λ _ _, None;
     smtp_starttls := None;
     smtp_login := λ _ _, None;
     smtp_send_message := λ _, None;
     smtp_quit := None |}.

(** A server that lets the client connect and refuses the login. *)
Definition SMTPAuthenticationError : exn :=
  Exn "SMTPAuthenticationError" true (lit "(535, b'5.7.8 Username and Password not accepted')").

Definition world_refusing_login : World :=
  {| generate_content := λ _ _, inr (response_with None);
     smtp_connect := λ _ _, None;
     smtp_starttls := None;
     smtp_login := λ _ _, Some SMTPAuthenticationError;
     smtp_send_message := λ _, None;
     smtp_quit := None |}.

(** An environment with the API key and the mail account only: host, port
    and sender address are left to their defaults. *)
Definition env_account_only : gmap string str :=
  {[ "GEMINI_API_KEY" := lit "key";
     "SMTP_USER" := lit "bot@example.org";
     "SMTP_PASS" := lit "secret" ]}.

(** An environment with the API key only. *)
Definition env_key_only : gmap string str :=
  {[ "GEMINI_API_KEY" := lit "key" ]}.

Definition cfg_account_only : Config :=
  {| GEMINI_API_KEY := lit "key";
     GEMINI_MODEL := lit "gemini-1.5-flash";
     SMTP_HOST := lit "smtp.gmail.com";
     SMTP_PORT := 587;
     SMTP_USER := lit "bot@example.org";
     SMTP_PASS := lit "secret";
     FROM_EMAIL := lit "bot@example.org" |}.

Definition scenario_body : SummarizeIn :=
  {| transcript := lit "Alice: ship by Friday."; prompt := lit "List action items" |}.

Definition mail_body : EmailIn :=
  {| summary := lit "<b>done</b> & dusted";
     recipients := [lit "ann@example.org"; lit "bob@example.org"];
     subject := Some (lit "Meeting Summary") |}.

(** The message [mail_body] becomes under [cfg_account_only]. *)
Definition mail_sent : EmailMessage :=
  {| msg_Subject := Some (lit "Meeting Summary");
     msg_From := lit "bot@example.org";
     msg_To := lit "ann@example.org, bob@example.org";
     msg_content := lit "<b>done</b> & dusted";
     msg_alternative :=
       ("html",
        lit ("<html><body><pre style=" +:+ DQ
               +:+ "font-family: ui-monospace, monospace;" +:+ DQ +:+ ">"
               +:+ "<b>done</b> & dusted</pre></body></html>")) |}.

(** A stand-in for [EmailStr] in the examples: an address has exactly one
    at-sign, with something on both sides of it. *)
Definition one_at_sign (s : str) : option str :=
  match filter (λ c, c = 64%N) s with
  | [_] => if bool_decide (head s ≠ Some 64%N ∧ last s ≠ Some 64%N) then Some s else None
  | _ => None
  end.

Definition mail_raw_malformed : EmailRaw :=
  {| raw_summary := lit "notes";
     raw_recipients := [lit "ann@example.org"; lit "not-an-email"];
     raw_subject := None |}.

(** ** Further predicates and inputs *)

(** The text between instruction and transcript in the provider input. *)
Definition transcript_mark : str := lit (LF +:+ LF +:+ "Transcript:" +:+ LF).

(** The message of the [RuntimeError] the module raises without a key. *)
Definition key_not_set : string := "GEMINI_API_KEY not set (put it in backend/.env)".


Definition is_generate (ev : Event) : bool :=
  match ev with EvGenerate _ _ => true | _ => false end.






Definition ServiceUnavailable : exn :=
  Exn "ServiceUnavailable" true (lit "503 The model is overloaded.").

(** The provider is down. *)
Definition world_provider_down : World :=
  {| generate_content := λ _ _, inl ServiceUnavailable;
     smtp_connect := λ _ _, None;
     smtp_starttls := None;
     smtp_login := λ _ _, None;
     smtp_send_message := λ _, None;
     smtp_quit := None |}.


Definition mail_raw : EmailRaw :=
  {| raw_summary := lit "<b>done</b> & dusted";
     raw_recipients := [lit "ann@example.org"; lit "bob@example.org"];
     raw_subject := None |}.




(** ** The effect monad: traces and results *)

Lemma bind_trace_raise {A B} (m : IO A) (k : A → IO B) e :
  m.2 = inl e → m ≫= k = (m.1, inl e).
Proof. intros H. unfold mbind, IO_bind. by rewrite H. Qed.

Lemma bind_trace_ret {A B} (m : IO A) (k : A → IO B) a :
  m.2 = inr a → m ≫= k = (m.1 ++ (k a).1, (k a).2).
Proof. intros H. unfold mbind, IO_bind. by rewrite H. Qed.

Lemma bind_pure {A B} (a : A) (k : A → IO B) : (([], inr a) : IO A) ≫= k = k a.
Proof. unfold mbind, IO_bind. simpl. by destruct (k a). Qed.

Lemma summary_text_of_pure response : (summary_text_of response).1 = [].
Proof.
  unfold summary_text_of.
  destruct (truthy _); [|done].
  by destruct (getattr_text response).
Qed.

(** Whatever the provider answers, the handler made exactly one call to it,
    with the model of the configuration and the given prompt. *)
Lemma generate_then_trace cfg w content (k : str → IO json) :
  (∀ s, (k s).1 = []) →
  (call (EvGenerate (GEMINI_MODEL cfg) content)
        (generate_content w (GEMINI_MODEL cfg) content)
     ≫= λ response, summary_text_of response ≫= k).1
  = [EvGenerate (GEMINI_MODEL cfg) content].
Proof.
  intros Hk. unfold call, mbind, IO_bind. simpl.
  destruct (generate_content _ _ _) as [e|r]; simpl; [done|].
  pose proof (summary_text_of_pure r) as Hp.
  destruct (summary_text_of r) as [tr [e|s]]; simpl in *; subst; [done|].
  by rewrite Hk.
Qed.

Lemma summarize_trace cfg w body :
  (summarize cfg w body).1
  = [EvGenerate (GEMINI_MODEL cfg) (user_content_of (prompt body) (transcript body))].
Proof. unfold summarize. by apply generate_then_trace. Qed.

Lemma summarize_result cfg w body r :
  generate_content w (GEMINI_MODEL cfg)
    (user_content_of (prompt body) (transcript body)) = inr r →
  (summarize cfg w body).2
  = match (summary_text_of r).2 with
    | inl e => inl e
    | inr s => inr [("summary", JString s)]
    end.
Proof.
  intros Hr. unfold summarize, call, mbind, IO_bind. simpl. rewrite Hr. simpl.
  by destruct (summary_text_of r) as [tr [e|s]].
Qed.

(** ** The UTF-8 decoder *)

(** Induction on the input that follows the decoder, which resumes up to
    four bytes further on. *)
Lemma bytes_ind4 (P : list byte → Prop) :
  P [] →
  (∀ b r1,
      P r1 →
      (∀ b2 r2, r1 = b2 :: r2 → P r2) →
      (∀ b2 b3 r3, r1 = b2 :: b3 :: r3 → P r3) →
      (∀ b2 b3 b4 r4, r1 = b2 :: b3 :: b4 :: r4 → P r4) →
      P (b :: r1)) →
  ∀ bs, P bs.
Proof.
  intros Hnil Hcons bs.
  assert (H : ∀ n (l : list byte), (length l ≤ n)%nat → P l).
  { induction n as [|n IH]; intros [|b r1] Hlen; simpl in Hlen; try done; try lia.
    apply Hcons.
    - apply IH. lia.
    - intros b2 r2 ->. apply IH. simpl in Hlen. lia.
    - intros b2 b3 r3 ->. apply IH. simpl in Hlen. lia.
    - intros b2 b3 b4 r4 ->. apply IH. simpl in Hlen. lia. }
  by apply (H (length bs)).
Qed.

Ltac decoder_cases :=
  cbn [utf8_decode];
  repeat match goal with
         | |- context [if ?c then _ else _] => destruct c eqn:?
         | |- context [match ?l with [] => _ | _ :: _ => _ end] =>
             is_var l; destruct l
         end.

Lemma utf8_decode_ignore_total (bs : list byte) :
  ∃ s, utf8_decode Ignore bs = inr s.
Proof.
  induction bs as [|b r1 IH1 IH2 IH3 IH4] using bytes_ind4; [by exists []|].
  assert (Hemit : ∀ c r, (∃ s, utf8_decode Ignore r = inr s) →
                         ∃ s, emit c (utf8_decode Ignore r) = inr s).
  { intros c r [s ->]. by exists (c :: s). }
  decoder_cases; cbn [on_error];
    try (by exists []); try apply Hemit; eauto.
Qed.

Ltac rewrite_conditions :=
  repeat match goal with
         | H : ?c = _ |- context [if ?c then _ else _] => rewrite H
         end.

Ltac sublist_tail H :=
  first [ exact H
        | apply sublist_cons; exact H
        | do 2 apply sublist_cons; exact H
        | do 3 apply sublist_cons; exact H
        | do 4 apply sublist_cons; exact H ].

(** What [errors="ignore"] returns is what [errors="strict"] returns on the
    input with some bytes taken out. *)
Lemma utf8_decode_ignore_drops (bs : list byte) :
  ∃ kept s, sublist kept bs
            ∧ utf8_decode Ignore bs = inr s
            ∧ utf8_decode Strict kept = inr s.
Proof.
  induction bs as [|b r1 IH1 IH2 IH3 IH4] using bytes_ind4.
  { exists [], []. split_and!; constructor. }
  decoder_cases; cbn [on_error];
    try specialize (IH2 _ _ eq_refl);
    try specialize (IH3 _ _ _ eq_refl);
    try specialize (IH4 _ _ _ _ eq_refl).
  all: try (exists [], []; split_and!; [apply sublist_nil_l | done | done ]).
  all: try match goal with
    | IH : ∃ kept s, sublist kept ?r ∧ utf8_decode Ignore ?r = inr s ∧ _
      |- ∃ kept s, _ ∧ utf8_decode Ignore ?r = inr s ∧ _ =>
        destruct IH as (kept & s & Hsub & Hi & Hs);
        exists kept, s; split_and!; [ sublist_tail Hsub | done | done ]
    end.
  all: match goal with
    | IH : ∃ kept s, sublist kept ?r ∧ utf8_decode Ignore ?r = inr s ∧ _
      |- ∃ kept s, sublist kept ?l ∧ emit ?c (utf8_decode Ignore ?r) = inr s ∧ _ =>
        destruct IH as (kept & s & Hsub & Hi & Hs);
        match l with
        | ?a1 :: r => exists (a1 :: kept), (c :: s)
        | ?a1 :: ?a2 :: r => exists (a1 :: a2 :: kept), (c :: s)
        | ?a1 :: ?a2 :: ?a3 :: r => exists (a1 :: a2 :: a3 :: kept), (c :: s)
        | ?a1 :: ?a2 :: ?a3 :: ?a4 :: r => exists (a1 :: a2 :: a3 :: a4 :: kept), (c :: s)
        end;
        split_and!;
        [ repeat apply sublist_skip; exact Hsub
        | by rewrite Hi
        | cbn [utf8_decode]; rewrite_conditions; by rewrite Hs ]
    end.
Qed.

(** Well-formed input is decoded the same way under both handlers. *)
Lemma utf8_decode_strict_ignore (bs : list byte) s :
  utf8_decode Strict bs = inr s → utf8_decode Ignore bs = inr s.
Proof.
  revert s. induction bs as [|b r1 IH1 IH2 IH3 IH4] using bytes_ind4; [done|].
  intros s. decoder_cases; cbn [on_error]; try done.
  all: try specialize (IH2 _ _ eq_refl);
    try specialize (IH3 _ _ _ eq_refl);
    try specialize (IH4 _ _ _ _ eq_refl).
  all: match goal with
       | |- emit _ (utf8_decode Strict ?r) = _ → _ =>
           destruct (utf8_decode Strict r) as [e|s'] eqn:Hs; [done|];
           intros [= <-];
           match goal with IH : ∀ s, inr s' = inr s → _ |- _ => by rewrite (IH _ eq_refl) end
       end.
Qed.

Example utf8_decode_ignore_mixed :
  utf8_decode Ignore [x41; xff; xc3; xa9; xe2; x82; xac; xf0; x9f; x98; x80; xe2; x82]
  = inr [65; 233; 8364; 128512]%N.
Proof. reflexivity. Qed.

Example utf8_decode_strict_raises :
  utf8_decode Strict [x41; xff]
  = inl (UnicodeDecodeError "invalid start byte").
Proof. reflexivity. Qed.

(** *** Code points as arithmetic *)

Ltac div_lia := zify; Z.to_euclidean_division_equations; lia.

Section Bits.
Local Open Scope N_scope.

(** Bits shifted past those of [b] do not meet them, so [lor] adds. *)
Lemma land_shiftl_low a b k : b < 2 ^ k → N.land (N.shiftl a k) b = 0.
Proof.
  intros Hb. apply N.bits_inj. intros n. rewrite N.land_spec, N.bits_0.
  destruct (N.ltb_spec n k) as [Hlt|Hge].
  - by rewrite N.shiftl_spec_low.
  - rewrite andb_false_iff. right.
    destruct (N.eq_dec b 0) as [->|Hnz]; [apply N.bits_0|].
    apply N.bits_above_log2. apply N.log2_lt_pow2; [lia|].
    eapply N.lt_le_trans; [exact Hb|]. apply N.pow_le_mono_r; lia.
Qed.

Lemma lor_shiftl_add a b k : b < 2 ^ k → N.lor (N.shiftl a k) b = a * 2 ^ k + b.
Proof.
  intros Hb. rewrite <- N.lxor_lor by (by apply land_shiftl_low).
  rewrite <- N.add_nocarry_lxor by (by apply land_shiftl_low).
  by rewrite N.shiftl_mul_pow2.
Qed.

(** The masks of the decoder. *)
Lemma land_31 c : N.land c 31 = c mod 32.
Proof. apply (N.land_ones c 5). Qed.
Lemma land_15 c : N.land c 15 = c mod 16.
Proof. apply (N.land_ones c 4). Qed.
Lemma land_7 c : N.land c 7 = c mod 8.
Proof. apply (N.land_ones c 3). Qed.
Lemma land_63 c : N.land c 63 = c mod 64.
Proof. apply (N.land_ones c 6). Qed.

Lemma cp2_arith c c2 : cp2 c c2 = (c mod 32) * 64 + c2 mod 64.
Proof.
  unfold cp2. rewrite land_31, land_63.
  rewrite lor_shiftl_add; [done|]. change (2 ^ 6) with 64. div_lia.
Qed.

Lemma cp3_arith c c2 c3 :
  cp3 c c2 c3 = (c mod 16) * 4096 + (c2 mod 64) * 64 + c3 mod 64.
Proof.
  unfold cp3. rewrite land_15, !land_63.
  rewrite (lor_shiftl_add (c mod 16) (N.shiftl (c2 mod 64) 6) 12).
  2:{ rewrite N.shiftl_mul_pow2. change (2 ^ 6) with 64. change (2 ^ 12) with 4096. div_lia. }
  rewrite N.shiftl_mul_pow2.
  replace (c mod 16 * 2 ^ 12 + c2 mod 64 * 2 ^ 6)
    with (N.shiftl (c mod 16 * 64 + c2 mod 64) 6).
  2:{ rewrite N.shiftl_mul_pow2. change (2 ^ 6) with 64. change (2 ^ 12) with 4096. lia. }
  rewrite lor_shiftl_add.
  - change (2 ^ 6) with 64. lia.
  - change (2 ^ 6) with 64. div_lia.
Qed.

Lemma cp4_arith c c2 c3 c4 :
  cp4 c c2 c3 c4
  = (c mod 8) * 262144 + (c2 mod 64) * 4096 + (c3 mod 64) * 64 + c4 mod 64.
Proof.
  unfold cp4. rewrite land_7, !land_63.
  rewrite (lor_shiftl_add (c mod 8) (N.shiftl (c2 mod 64) 12) 18).
  2:{ rewrite N.shiftl_mul_pow2. change (2 ^ 12) with 4096. change (2 ^ 18) with 262144. div_lia. }
  rewrite (N.shiftl_mul_pow2 (c2 mod 64) 12).
  replace (c mod 8 * 2 ^ 18 + c2 mod 64 * 2 ^ 12)
    with (N.shiftl (c mod 8 * 64 + c2 mod 64) 12).
  2:{ rewrite N.shiftl_mul_pow2. change (2 ^ 12) with 4096. change (2 ^ 18) with 262144. lia. }
  rewrite (lor_shiftl_add _ (N.shiftl (c3 mod 64) 6) 12).
  2:{ rewrite N.shiftl_mul_pow2. change (2 ^ 6) with 64. change (2 ^ 12) with 4096. div_lia. }
  rewrite (N.shiftl_mul_pow2 (c3 mod 64) 6).
  replace ((c mod 8 * 64 + c2 mod 64) * 2 ^ 12 + c3 mod 64 * 2 ^ 6)
    with (N.shiftl ((c mod 8 * 64 + c2 mod 64) * 64 + c3 mod 64) 6).
  2:{ rewrite N.shiftl_mul_pow2. change (2 ^ 6) with 64. change (2 ^ 12) with 4096. lia. }
  rewrite lor_shiftl_add.
  - change (2 ^ 6) with 64. lia.
  - change (2 ^ 6) with 64. div_lia.
Qed.

End Bits.

(** Every code point the decoder emits is a scalar value: no overlong
    form, no surrogate, nothing above U+10FFFF. *)

Ltac cmp_cases :=
  repeat match goal with
         | H : context [(?a <? ?b)%N] |- _ => destruct (N.ltb_spec a b)
         | H : context [(?a <=? ?b)%N] |- _ => destruct (N.leb_spec a b)
         | H : context [(?a =? ?b)%N] |- _ => destruct (N.eqb_spec a b)
         end;
  cbn [negb andb orb] in *; try discriminate.

Lemma scalar2 c c2 :
  (c <? 194)%N = false → (c <? 224)%N = true → is_cont c2 = true →
  is_scalar (cp2 c c2) = true.
Proof.
  unfold is_cont, is_scalar. rewrite cp2_arith. intros H1 H2 H3.
  cmp_cases. clear H1 H2 H3.
  apply orb_true_iff. left. apply N.ltb_lt. div_lia.
Qed.

Lemma scalar3 c c2 c3 :
  (c <? 224)%N = false → (c <? 240)%N = true → bad2_of3 c c2 = false →
  is_cont c3 = true →
  is_scalar (cp3 c c2 c3) = true.
Proof.
  unfold bad2_of3, is_cont, is_scalar. rewrite cp3_arith. intros H1 H2 H3 H4.
  cmp_cases; clear H1 H2 H3 H4.
  all: apply orb_true_iff; rewrite andb_true_iff, !N.ltb_lt, N.leb_le; div_lia.
Qed.

Lemma scalar4 c c2 c3 c4 :
  (c <? 240)%N = false → (c <? 245)%N = true → bad2_of4 c c2 = false →
  is_cont c3 = true → is_cont c4 = true →
  is_scalar (cp4 c c2 c3 c4) = true.
Proof.
  unfold bad2_of4, is_cont, is_scalar. rewrite cp4_arith. intros H1 H2 H3 H4 H5.
  cmp_cases; clear H1 H2 H3 H4 H5.
  all: apply orb_true_iff; rewrite andb_true_iff, !N.ltb_lt, N.leb_le; div_lia.
Qed.

Lemma emit_inr c rest s :
  emit c rest = inr s → ∃ s', rest = inr s' ∧ s = c :: s'.
Proof. destruct rest as [e|s']; [done|]. intros [= <-]. eauto. Qed.

Lemma utf8_decode_scalar errors (bs : list byte) s :
  utf8_decode errors bs = inr s → Forall (λ c, is_scalar c = true) s.
Proof.
  revert s. induction bs as [|b r1 IH1 IH2 IH3 IH4] using bytes_ind4.
  { intros s [= <-]. constructor. }
  intros s. decoder_cases;
    try specialize (IH2 _ _ eq_refl);
    try specialize (IH3 _ _ _ eq_refl);
    try specialize (IH4 _ _ _ _ eq_refl).
  all: try (destruct errors; cbn [on_error]; [done|]).
  all: try (intros [= <-]; constructor).
  all: try (intros Hd; by eauto).
  all: intros (s' & Hd & ->)%emit_inr; constructor; [|by eauto].
  - match goal with H : (_ <? 128)%N = true |- _ => apply N.ltb_lt in H end.
    unfold is_scalar. apply orb_true_iff. left. apply N.ltb_lt. lia.
  - by apply scalar2.
  - apply scalar3; try done. 
  - apply scalar4; try done. by apply negb_false_iff.
Qed.

(** The bytes of the encoder, as arithmetic. *)

Section Encode.
Local Open Scope N_scope.

Lemma to_N_byte_of n : n < 256 → Byte.to_N (byte_of n) = n.
Proof.
  intros Hn. unfold byte_of. destruct (Byte.of_N n) as [b|] eqn:Hb.
  - by apply Byte.to_of_N.
  - apply Byte.of_N_None_iff in Hb. lia.
Qed.

Lemma enc_cont x : N.lor 128 (N.land x 63) = 128 + x mod 64.
Proof.
  rewrite land_63. change 128 with (N.shiftl 2 6) at 1.
  rewrite lor_shiftl_add; change (2 ^ 6) with 64; [lia|div_lia].
Qed.

Lemma enc_lead2 c : c < 2048 → N.lor 192 (N.shiftr c 6) = 192 + c / 64.
Proof.
  intros Hc. rewrite N.shiftr_div_pow2. change (2 ^ 6) with 64.
  change 192 with (N.shiftl 3 6) at 1.
  rewrite lor_shiftl_add; change (2 ^ 6) with 64; [lia|div_lia].
Qed.

Lemma enc_lead3 c : c < 65536 → N.lor 224 (N.shiftr c 12) = 224 + c / 4096.
Proof.
  intros Hc. rewrite N.shiftr_div_pow2. change (2 ^ 12) with 4096.
  change 224 with (N.shiftl 14 4) at 1.
  rewrite lor_shiftl_add; change (2 ^ 4) with 16; [lia|div_lia].
Qed.

Lemma enc_lead4 c : c < 1114112 → N.lor 240 (N.shiftr c 18) = 240 + c / 262144.
Proof.
  intros Hc. rewrite N.shiftr_div_pow2. change (2 ^ 18) with 262144.
  change 240 with (N.shiftl 30 3) at 1.
  rewrite lor_shiftl_add; change (2 ^ 3) with 8; [lia|div_lia].
Qed.

Lemma shiftr_6 c : N.shiftr c 6 = c / 64.
Proof. by rewrite N.shiftr_div_pow2. Qed.
Lemma shiftr_12 c : N.shiftr c 12 = c / 4096.
Proof. by rewrite N.shiftr_div_pow2. Qed.

End Encode.

Ltac goal_cmp_cases :=
  repeat match goal with
         | |- context [(?a <? ?b)%N] =>
             destruct (N.ltb_spec a b); try (exfalso; lia)
         | |- context [(?a <=? ?b)%N] =>
             destruct (N.leb_spec a b); try (exfalso; lia)
         | |- context [(?a =? ?b)%N] =>
             destruct (N.eqb_spec a b); try (exfalso; lia)
         end.

(** One well-formed sequence at the head of the input is decoded to its
    code point, under either handler. *)

Section Steps.
Local Open Scope N_scope.
Variable errors : error_handler.

Lemma utf8_decode_step1 b r :
  Byte.to_N b < 128 →
  utf8_decode errors (b :: r) = emit (Byte.to_N b) (utf8_decode errors r).
Proof. intros H. cbn [utf8_decode]. by goal_cmp_cases. Qed.

Lemma utf8_decode_step2 b b2 r :
  194 ≤ Byte.to_N b < 224 → 128 ≤ Byte.to_N b2 < 192 →
  utf8_decode errors (b :: b2 :: r)
  = emit (cp2 (Byte.to_N b) (Byte.to_N b2)) (utf8_decode errors r).
Proof.
  intros H H2. remember (b2 :: r) as r1 eqn:E. cbn [utf8_decode].
  goal_cmp_cases. subst r1. cbv beta match zeta. unfold is_cont.
  by goal_cmp_cases.
Qed.

Lemma utf8_decode_step3 b b2 b3 r :
  224 ≤ Byte.to_N b < 240 → 128 ≤ Byte.to_N b2 < 192 →
  (Byte.to_N b = 224 → 160 ≤ Byte.to_N b2) →
  (Byte.to_N b = 237 → Byte.to_N b2 < 160) →
  128 ≤ Byte.to_N b3 < 192 →
  utf8_decode errors (b :: b2 :: b3 :: r)
  = emit (cp3 (Byte.to_N b) (Byte.to_N b2) (Byte.to_N b3)) (utf8_decode errors r).
Proof.
  intros H H2 Hlo Hhi H3. remember (b2 :: b3 :: r) as r1 eqn:E. cbn [utf8_decode].
  goal_cmp_cases. subst r1. cbv beta match zeta. unfold bad2_of3, is_cont.
  by goal_cmp_cases.
Qed.

Lemma utf8_decode_step4 b b2 b3 b4 r :
  240 ≤ Byte.to_N b < 245 → 128 ≤ Byte.to_N b2 < 192 →
  (Byte.to_N b = 240 → 144 ≤ Byte.to_N b2) →
  (Byte.to_N b = 244 → Byte.to_N b2 < 144) →
  128 ≤ Byte.to_N b3 < 192 → 128 ≤ Byte.to_N b4 < 192 →
  utf8_decode errors (b :: b2 :: b3 :: b4 :: r)
  = emit (cp4 (Byte.to_N b) (Byte.to_N b2) (Byte.to_N b3) (Byte.to_N b4))
      (utf8_decode errors r).
Proof.
  intros H H2 Hlo Hhi H3 H4. remember (b2 :: b3 :: b4 :: r) as r1 eqn:E.
  cbn [utf8_decode].
  goal_cmp_cases. subst r1. cbv beta match zeta. unfold bad2_of4, is_cont.
  by goal_cmp_cases.
Qed.

End Steps.

(** The decoder inverts the encoder. *)

Section RoundTrip.
Local Open Scope N_scope.

Lemma utf8_decode_encode_char errors c rest :
  is_scalar c = true →
  utf8_decode errors (utf8_encode_char c ++ rest)
  = emit c (utf8_decode errors rest).
Proof.
  unfold is_scalar, utf8_encode_char. intros Hc.
  destruct (N.ltb_spec c 128) as [H1|H1].
  { cbn [app]. rewrite utf8_decode_step1; rewrite to_N_byte_of by lia; done. }
  destruct (N.ltb_spec c 2048) as [H2|H2].
  { cbn [app]. rewrite enc_lead2, enc_cont by done.
    rewrite utf8_decode_step2; rewrite ?to_N_byte_of by div_lia; try div_lia.
    rewrite cp2_arith. f_equal. div_lia. }
  destruct (N.ltb_spec c 65536) as [H3|H3].
  { cbn [app]. rewrite enc_lead3, !enc_cont, shiftr_6 by done.
    assert (Hs : c < 55296 ∨ 57344 ≤ c).
    { destruct (N.ltb_spec c 55296); [by left|]. right.
      cbn [orb] in Hc. apply andb_true_iff in Hc as [Hc _]. by apply N.leb_le. }
    rewrite utf8_decode_step3; rewrite ?to_N_byte_of by div_lia; try div_lia.
    rewrite cp3_arith. f_equal. div_lia. }
  assert (H4 : c < 1114112).
  { destruct (N.ltb_spec c 55296); [lia|].
    cbn [orb] in Hc. apply andb_true_iff in Hc as [_ Hc]. by apply N.ltb_lt. }
  cbn [app]. rewrite enc_lead4, !enc_cont, shiftr_6, shiftr_12 by done.
  rewrite utf8_decode_step4; rewrite ?to_N_byte_of by div_lia; try div_lia.
  rewrite cp4_arith. f_equal. div_lia.
Qed.

Lemma utf8_decode_encode errors s :
  Forall (λ c, is_scalar c = true) s →
  utf8_decode errors (utf8_encode s) = inr s.
Proof.
  induction 1 as [|c s Hc _ IH]; [done|].
  unfold utf8_encode in *. cbn [mbind list_bind].
  rewrite utf8_decode_encode_char by done.
  change (mbind utf8_encode_char s) with (s ≫= utf8_encode_char).
  by rewrite IH.
Qed.

End RoundTrip.

(** ** The summarising handlers *)

Lemma upload_as_summarize cfg w file p t :
  utf8_decode Ignore file = inr t →
  upload_and_summarize cfg w file p
  = summarize cfg w {| transcript := t; prompt := p |}.
Proof.
  intros Ht. unfold upload_and_summarize, lift. rewrite Ht.
  by rewrite bind_pure.
Qed.





Lemma lstrip_spec s :
  ∃ l, s = l ++ lstrip s
       ∧ Forall (λ c, isspace c = true) l
       ∧ (∀ c, head (lstrip s) = Some c → isspace c = false).
Proof.
  induction s as [|c s (l & Hs & Hl & Hh)]; cbn [lstrip].
  - exists []. by split_and!.
  - destruct (isspace c) eqn:Hc.
    + exists (c :: l). split_and!; [by rewrite Hs at 1 | by constructor | done].
    + exists []. split_and!; [done | constructor |]. by intros ? [= <-].
Qed.

Lemma rstrip_spec s :
  ∃ r, s = rstrip s ++ r
       ∧ Forall (λ c, isspace c = true) r
       ∧ (∀ c, last (rstrip s) = Some c → isspace c = false).
Proof.
  destruct (lstrip_spec (reverse s)) as (l & Hs & Hl & Hh).
  exists (reverse l). unfold rstrip. split_and!.
  - rewrite <- reverse_app, <- Hs. by rewrite reverse_involutive.
  - by apply Forall_reverse.
  - intros c. rewrite last_reverse. apply Hh.
Qed.

(** [strip] takes whitespace, and nothing else, off both ends. *)
Lemma strip_spec s :
  ∃ l r, s = l ++ strip s ++ r
         ∧ Forall (λ c, isspace c = true) l
         ∧ Forall (λ c, isspace c = true) r
         ∧ (∀ c, head (strip s) = Some c → isspace c = false)
         ∧ (∀ c, last (strip s) = Some c → isspace c = false).
Proof.
  destruct (lstrip_spec s) as (l & Hs & Hl & Hh).
  destruct (rstrip_spec (lstrip s)) as (r & Ht & Hr & Hlast).
  exists l, r. unfold strip. split_and!; try done.
  - by rewrite <- Ht.
  - intros c Hc. apply Hh. rewrite Ht.
    destruct (rstrip (lstrip s)); [done|]. exact Hc.
Qed.

Example strip_example : strip (lit "  a b  ") = lit "a b".
Proof. reflexivity. Qed.

Example int_examples :
  int_ (lit "587") = inr 587 ∧ int_ (lit " -5_0 ") = inr (-50)
  ∧ int_ (lit "0") = inr 0
  ∧ int_ (lit "") = inl (ValueError (lit "invalid literal for int() with base 10"))
  ∧ int_ (lit "5__0") = inl (ValueError (lit "invalid literal for int() with base 10")).
Proof. by split_and!. Qed.

(** [C1] The one call [summarize] makes to the provider carries the prompt
    ["Instruction: " ++ p ++ "\n\nTranscript:\n" ++ t]; [upload_and_summarize]
    makes the same call, with [t] the decoded contents of the file. *)
Theorem prompt_sent_to_provider cfg w :
  (∀ body,
      (summarize cfg w body).1
      = [EvGenerate (GEMINI_MODEL cfg)
           (lit "Instruction: " ++ prompt body
              ++ lit (LF +:+ LF +:+ "Transcript:" +:+ LF) ++ transcript body)])
  ∧ (∀ file p,
      ∃ t, utf8_decode Ignore file = inr t
           ∧ (upload_and_summarize cfg w file p).1
             = [EvGenerate (GEMINI_MODEL cfg)
                  (lit "Instruction: " ++ p
                     ++ lit (LF +:+ LF +:+ "Transcript:" +:+ LF) ++ t)]).
Proof.
  split.
  - intros body. apply summarize_trace.
  - intros file p. destruct (utf8_decode_ignore_total file) as [t Ht].
    exists t. split; [done|].
    rewrite (upload_as_summarize _ _ _ _ _ Ht). apply summarize_trace.
Qed.

(** The end-to-end scenario of the specification. *)
Example scenario_end_to_end :
  respond (summarize cfg_account_only
             (world_answering (Some (PStr (lit "- Alice: ship by Friday"))))
             scenario_body)
  = ([EvGenerate (lit "gemini-1.5-flash")
        (lit ("Instruction: List action items" +:+ LF +:+ LF
                +:+ "Transcript:" +:+ LF +:+ "Alice: ship by Friday."))],
     Response200 [("summary", JString (lit "- Alice: ship by Friday"))]).
Proof. reflexivity. Qed.

Lemma user_content_head p t : head (user_content_of p t) = Some 73%N.
Proof. done. Qed.

(** [C2] The specification has the provider input start with the fixed
    system prompt.  The code defines [SYSTEM_PROMPT] and never passes it on:
    the only call to the provider carries the user content, which never
    starts with the system prompt, and which in the scenario of the
    specification is shorter than the system prompt. *)
Theorem summarize_omits_system_prompt :
  (∀ cfg w body,
      ∃ p, (summarize cfg w body).1 = [EvGenerate (GEMINI_MODEL cfg) p]
           ∧ bool_decide (SYSTEM_PROMPT `prefix_of` p) = false)
  ∧ (∀ cfg w,
      ∃ p, (summarize cfg w scenario_body).1 = [EvGenerate (GEMINI_MODEL cfg) p]
           ∧ (length p < length SYSTEM_PROMPT)%nat).
Proof.
  split.
  - intros cfg w body. eexists. split; [apply summarize_trace|].
    apply bool_decide_eq_false_2. intros [k Hk].
    pose proof (user_content_head (prompt body) (transcript body)) as Hh.
    rewrite Hk in Hh. discriminate Hh.
  - intros cfg w. eexists. split; [apply summarize_trace|].
    vm_compute. lia.
Qed.





(** [C7] Whatever bytes are uploaded, decoding does not raise: the
    transcript is the strict decoding of the upload with some bytes taken
    out, so it holds scalar values only; nothing is taken out of a
    well-formed upload, which decodes to the string it encodes.  The handler
    goes on as [summarize] does on that transcript, and it answers 200
    whenever the provider answers with a text. *)
Theorem upload_decodes_leniently cfg w file p :
  ∃ t kept,
    utf8_decode Ignore file = inr t
    ∧ sublist kept file
    ∧ utf8_decode Strict kept = inr t
    ∧ Forall (λ c, is_scalar c = true) t
    ∧ (∀ s, utf8_decode Strict file = inr s → t = s)
    ∧ (∀ s, Forall (λ c, is_scalar c = true) s → file = utf8_encode s → t = s)
    ∧ upload_and_summarize cfg w file p
      = summarize cfg w {| transcript := t; prompt := p |}
    ∧ (∀ r text,
         generate_content w (GEMINI_MODEL cfg) (user_content_of p t) = inr r →
         resp_text r = Some (PStr text) →
         ∃ s, (respond (upload_and_summarize cfg w file p)).2
              = Response200 [("summary", JString s)]).
Proof.
  destruct (utf8_decode_ignore_drops file) as (kept & t & Hsub & Hi & Hs).
  exists t, kept. split_and!; try done.
  - by apply (utf8_decode_scalar Ignore file).
  - intros s Hstrict. apply utf8_decode_strict_ignore in Hstrict. congruence.
  - intros s Hsc ->. rewrite (utf8_decode_encode Ignore s Hsc) in Hi. congruence.
  - by apply upload_as_summarize.
  - intros r text Hg Hr. rewrite (upload_as_summarize _ _ _ _ _ Hi).
    unfold respond. cbn [snd].
    rewrite (summarize_result _ _ {| transcript := t; prompt := p |} _ Hg).
    unfold summary_text_of, getattr_text. rewrite Hr. simpl.
    destruct (bool_decide _); simpl; eauto.
Qed.

Lemma upload_decodes_leniently_witness :
  ∃ s, (respond (upload_and_summarize cfg_account_only
                   (world_answering (Some (PStr (lit "ok"))))
                   [x41; xff; xc3; xa9] (lit "P"))).2
       = Response200 [("summary", JString s)].
Proof.
  destruct (upload_decodes_leniently cfg_account_only
              (world_answering (Some (PStr (lit "ok"))))
              [x41; xff; xc3; xa9] (lit "P"))
    as (t & kept & _ & _ & _ & _ & _ & _ & _ & H).
  apply (H (response_with (Some (PStr (lit "ok")))) (lit "ok")); reflexivity.
Defined.

(** [C9] Whatever the configuration, [GET /health] answers 200 with
    [{"status": "ok"}] and calls nothing; so does every process that
    started. *)
Theorem health_fixed EmailStr w :
  (∀ cfg,
      handle EmailStr cfg w GET_health
      = ([], Response200 [("status", JString (lit "ok"))]))
  ∧ (∀ env cfg,
      startup env = inr cfg →
      serve EmailStr env w GET_health
      = inr ([], Response200 [("status", JString (lit "ok"))])).
Proof.
  split; [done|]. intros env cfg H. unfold serve. by rewrite H.
Qed.

Lemma health_fixed_witness :
  serve one_at_sign env_key_only (world_answering None) GET_health
  = inr ([], Response200 [("status", JString (lit "ok"))]).
Proof.
  apply (proj2 (health_fixed one_at_sign (world_answering None))
           env_key_only
           {| GEMINI_API_KEY := lit "key";
              GEMINI_MODEL := lit "gemini-1.5-flash";
              SMTP_HOST := lit "smtp.gmail.com";
              SMTP_PORT := 587;
              SMTP_USER := [];
              SMTP_PASS := [];
              FROM_EMAIL := [] |}).
  vm_compute. reflexivity.
Defined.

(** ** The mailer *)

Lemma send_email_unconfigured cfg w body :
  configured cfg = false → send_email cfg w body = ([], inr not_configured).
Proof. intros H. unfold send_email. fold (configured cfg). by rewrite H. Qed.

Lemma send_email_configured cfg w body :
  configured cfg = true →
  send_email cfg w body
  = let session := smtp_session cfg w (build_message cfg body) in
    (session.1,
     match session.2 with
     | inr _ => inr ok_true
     | inl e => if exn_is_Exception e then inr (ok_false e) else inl e
     end).
Proof.
  intros H. unfold send_email. fold (configured cfg). rewrite H. cbn [negb].
  cbv zeta. destruct (smtp_session _ _ _) as [tr [e|[]]];
    unfold try_except_Exception, mbind, IO_bind; cbn.
  - destruct (exn_is_Exception e); cbn; by rewrite ?app_nil_r.
  - by rewrite ?app_nil_r.
Qed.


(** The session starts by connecting to the configured host and port. *)
Lemma smtp_session_connects cfg w msg :
  ∃ rest, (smtp_session cfg w msg).1
          = EvConnect (SMTP_HOST cfg) (SMTP_PORT cfg) :: rest.
Proof.
  unfold smtp_session, with_, call_, mbind, IO_bind. cbn.
  destruct (smtp_connect w _ _); cbn; eauto.
Qed.

(** The only message the session hands to the server is the one given. *)
Lemma smtp_session_sends cfg w msg m :
  EvSendMessage m ∈ (smtp_session cfg w msg).1 → m = msg.
Proof.
  unfold smtp_session, with_, call_, mbind, IO_bind. cbn.
  destruct (smtp_connect w _ _); cbn;
    [|destruct (smtp_starttls w); cbn;
      [|destruct (smtp_login w _ _); cbn;
        [|destruct (smtp_send_message w _); cbn]]].
  all: intros H;
    repeat match goal with
           | H : _ ∈ _ :: _ |- _ => apply elem_of_cons in H as [H|H]
           | H : _ ∈ [] |- _ => by apply elem_of_nil in H
           | H : EvSendMessage _ = _ |- _ => by inversion H
           end.
Qed.

Example startup_defaults : startup env_account_only = inr cfg_account_only.
Proof. vm_compute. reflexivity. Qed.

(** [int("")] raises while the module is loaded. *)
Example startup_empty_port :
  startup (<["SMTP_PORT" := []]> env_account_only)
  = inl (ValueError (lit "invalid literal for int() with base 10")).
Proof. vm_compute. reflexivity. Qed.

Lemma startup_inv env cfg :
  startup env = inr cfg →
  SMTP_HOST cfg = getenv env "SMTP_HOST" (lit "smtp.gmail.com")
  ∧ int_ (getenv env "SMTP_PORT" (lit "587")) = inr (SMTP_PORT cfg)
  ∧ SMTP_USER cfg = getenv env "SMTP_USER" []
  ∧ SMTP_PASS cfg = getenv env "SMTP_PASS" []
  ∧ FROM_EMAIL cfg = getenv env "FROM_EMAIL" (SMTP_USER cfg).
Proof.
  unfold startup. destruct (env !! "GEMINI_API_KEY") as [[|c k]|]; try done.
  destruct (int_ _) as [e|port]; [done|]. by intros [= <-].
Qed.

Lemma configured_false_iff cfg :
  configured cfg = false
  ↔ SMTP_HOST cfg = [] ∨ SMTP_PORT cfg = 0 ∨ SMTP_USER cfg = []
    ∨ SMTP_PASS cfg = [] ∨ FROM_EMAIL cfg = [].
Proof.
  unfold configured, all_. cbn [forallb truthy].
  rewrite !andb_false_iff, !negb_false_iff, !bool_decide_eq_true, Z.eqb_eq.
  intuition discriminate.
Qed.

(** [C4], as the specification states it, fails: in [env_account_only]
    the variables SMTP_HOST, SMTP_PORT and FROM_EMAIL are unset, the module
    falls back to ["smtp.gmail.com"], [587] and the user's address, and
    the mail is sent. *)
Lemma unset_smtp_variable_still_sends :
  ¬ (∀ EmailStr env cfg w raw body,
        startup env = inr cfg →
        validate_EmailIn EmailStr raw = Some body →
        (∃ v, v ∈ smtp_variables ∧ unset_or_empty env v) →
        handle EmailStr cfg w (POST_email raw) = ([], Response200 not_configured)).
Proof.
  intros H.
  specialize (H one_at_sign env_account_only cfg_account_only (world_answering None)
                {| raw_summary := summary mail_body;
                   raw_recipients := recipients mail_body;
                   raw_subject := None |}
                mail_body).
  assert (Hgo : handle one_at_sign cfg_account_only (world_answering None)
                  (POST_email {| raw_summary := summary mail_body;
                                 raw_recipients := recipients mail_body;
                                 raw_subject := None |})
                = ([EvConnect (lit "smtp.gmail.com") 587; EvStartTLS;
                    EvLogin (lit "bot@example.org") (lit "secret");
                    EvSendMessage (build_message cfg_account_only mail_body);
                    EvQuit],
                   Response200 ok_true)) by (vm_compute; reflexivity).
  rewrite Hgo in H.
  assert (Hbad : ([EvConnect (lit "smtp.gmail.com") 587; EvStartTLS;
                   EvLogin (lit "bot@example.org") (lit "secret");
                   EvSendMessage (build_message cfg_account_only mail_body);
                   EvQuit],
                  Response200 ok_true)
                 = (([] : list Event), Response200 not_configured)).
  { apply H.
    - vm_compute. reflexivity.
    - vm_compute. reflexivity.
    - exists "SMTP_HOST". split.
      + apply list_elem_of_here.
      + left. vm_compute. reflexivity. }
  discriminate Hbad.
Qed.

(** [C4], amended.  In a process that started, a well-formed email request
    gets the answer "SMTP not configured on server." and no SMTP call is
    made when SMTP_USER or SMTP_PASS is unset or empty, when SMTP_HOST or
    FROM_EMAIL is set to the empty string, or when the port read from
    SMTP_PORT is 0. *)
Theorem smtp_not_configured EmailStr env cfg w raw body :
  startup env = inr cfg →
  validate_EmailIn EmailStr raw = Some body →
  env !! "SMTP_HOST" = Some []
  ∨ SMTP_PORT cfg = 0
  ∨ unset_or_empty env "SMTP_USER"
  ∨ unset_or_empty env "SMTP_PASS"
  ∨ env !! "FROM_EMAIL" = Some [] →
  handle EmailStr cfg w (POST_email raw)
  = ([], Response200 [("ok", JBool false);
                      ("error", JString (lit "SMTP not configured on server."))]).
Proof.
  intros Hstart Hval Hcond.
  destruct (startup_inv _ _ Hstart) as (Hhost & _ & Huser & Hpass & Hfrom).
  assert (Hc : configured cfg = false).
  { apply configured_false_iff. unfold getenv in *.
    destruct Hcond as [H | [H | [[H|H] | [[H|H] | H]]]].
    - left. by rewrite Hhost, H.
    - by right; left.
    - right; right; left. by rewrite Huser, H.
    - right; right; left. by rewrite Huser, H.
    - right; right; right; left. by rewrite Hpass, H.
    - right; right; right; left. by rewrite Hpass, H.
    - right; right; right; right. by rewrite Hfrom, H. }
  cbn [handle]. rewrite Hval.
  by rewrite (send_email_unconfigured _ _ _ Hc).
Qed.

Lemma smtp_not_configured_witness :
  handle one_at_sign
    {| GEMINI_API_KEY := lit "key";
       GEMINI_MODEL := lit "gemini-1.5-flash";
       SMTP_HOST := lit "smtp.gmail.com";
       SMTP_PORT := 587;
       SMTP_USER := [];
       SMTP_PASS := [];
       FROM_EMAIL := [] |}
    (world_answering None)
    (POST_email {| raw_summary := summary mail_body;
                   raw_recipients := recipients mail_body;
                   raw_subject := None |})
  = ([], Response200 [("ok", JBool false);
                      ("error", JString (lit "SMTP not configured on server."))]).
Proof.
  apply (smtp_not_configured one_at_sign env_key_only _ (world_answering None) _ mail_body).
  - vm_compute. reflexivity.
  - vm_compute. reflexivity.
  - right; right; left. left. vm_compute. reflexivity.
Defined.

(** The settings that do not stop the handler: it goes on to connect. *)
Lemma configured_connects cfg w body :
  configured cfg = true →
  ∃ rest, (send_email cfg w body).1
          = EvConnect (SMTP_HOST cfg) (SMTP_PORT cfg) :: rest.
Proof.
  intros H. rewrite (send_email_configured _ _ _ H). cbn.
  apply smtp_session_connects.
Qed.



(** [C6] A request with a recipient that [EmailStr] rejects is answered
    with a validation error; the handler does not run and nothing is
    called. *)
Theorem malformed_recipient_rejected EmailStr cfg w raw :
  (∃ r, r ∈ raw_recipients raw ∧ EmailStr r = None) →
  handle EmailStr cfg w (POST_email raw) = ([], ValidationError422).
Proof.
  intros (r & Hin & Hr). cbn [handle].
  assert (Hm : mapM EmailStr (raw_recipients raw) = None).
  { apply mapM_None_2, Exists_exists. eauto. }
  unfold validate_EmailIn. by rewrite Hm.
Qed.

Lemma malformed_recipient_rejected_witness :
  handle one_at_sign cfg_account_only (world_answering None)
    (POST_email mail_raw_malformed)
  = ([], ValidationError422).
Proof.
  apply malformed_recipient_rejected.
  exists (lit "not-an-email"). split.
  - apply list_elem_of_further, list_elem_of_here.
  - vm_compute. reflexivity.
Defined.



(** * Further properties of the code *)

(** ** Start-up *)

Lemma int_error s e :
  int_ s = inl e → e = ValueError (lit "invalid literal for int() with base 10").
Proof.
  unfold int_. destruct (strip s) as [|c r]; [by intros [= <-]|].
  repeat case_match; by intros [= <-].
Qed.

(** [X1] The module raises its [RuntimeError] exactly when GEMINI_API_KEY is
    unset or empty, whatever else the environment holds; such a process
    serves no request, [/health] included. *)
Theorem startup_needs_api_key env :
  (startup env = inl (RuntimeError key_not_set)
   ↔ unset_or_empty env "GEMINI_API_KEY")
  ∧ (unset_or_empty env "GEMINI_API_KEY" →
     ∀ EmailStr w req, serve EmailStr env w req = inl (RuntimeError key_not_set)).
Proof.
  assert (Hk : unset_or_empty env "GEMINI_API_KEY" →
               startup env = inl (RuntimeError key_not_set)).
  { unfold startup. by intros [-> | ->]. }
  split; [split; [|exact Hk]|].
  - unfold startup, unset_or_empty.
    destruct (env !! "GEMINI_API_KEY") as [[|c k]|]; [by right | | by left].
    destruct (int_ _) as [e|z] eqn:He; [|done].
    apply int_error in He as ->. discriminate.
  - intros H EmailStr w req. unfold serve. by rewrite (Hk H).
Qed.

Lemma startup_needs_api_key_witness :
  serve one_at_sign ∅ (world_answering None) GET_health
  = inl (RuntimeError key_not_set).
Proof.
  apply (proj2 (startup_needs_api_key ∅)). left. reflexivity.
Defined.



(** ** The SMTP session, case by case *)

Lemma smtp_session_unfold cfg w msg :
  smtp_session cfg w msg
  = let connect := EvConnect (SMTP_HOST cfg) (SMTP_PORT cfg) in
    let login := EvLogin (SMTP_USER cfg) (SMTP_PASS cfg) in
    let quit (r : exn + unit) : exn + unit :=
      match smtp_quit w with Some e' => inl e' | None => r end in
    match smtp_connect w (SMTP_HOST cfg) (SMTP_PORT cfg) with
    | Some e => ([connect], inl e)
    | None =>
      match smtp_starttls w with
      | Some e => ([connect; EvStartTLS; EvQuit], quit (inl e))
      | None =>
        match smtp_login w (SMTP_USER cfg) (SMTP_PASS cfg) with
        | Some e => ([connect; EvStartTLS; login; EvQuit], quit (inl e))
        | None =>
          match smtp_send_message w msg with
          | Some e =>
              ([connect; EvStartTLS; login; EvSendMessage msg; EvQuit], quit (inl e))
          | None =>
              ([connect; EvStartTLS; login; EvSendMessage msg; EvQuit], quit (inr tt))
          end
        end
      end
    end.
Proof.
  unfold smtp_session, with_, call_, mbind, IO_bind. cbn.
  destruct (smtp_connect w _ _); cbn; [done|].
  destruct (smtp_starttls w); cbn; [by destruct (smtp_quit w)|].
  destruct (smtp_login w _ _); cbn; [by destruct (smtp_quit w)|].
  destruct (smtp_send_message w _); cbn; by destruct (smtp_quit w).
Qed.

Lemma send_email_trace cfg w body :
  (send_email cfg w body).1
  = if configured cfg then (smtp_session cfg w (build_message cfg body)).1 else [].
Proof.
  destruct (configured cfg) eqn:Hc.
  - by rewrite (send_email_configured _ _ _ Hc).
  - by rewrite (send_email_unconfigured _ _ _ Hc).
Qed.

Ltac session_cases cfg w :=
  destruct (smtp_connect w (SMTP_HOST cfg) (SMTP_PORT cfg)) as [?e1|] eqn:?Hconnect;
  [|destruct (smtp_starttls w) as [?e2|] eqn:?Htls;
    [|destruct (smtp_login w (SMTP_USER cfg) (SMTP_PASS cfg)) as [?e3|] eqn:?Hlogin;
      [|match goal with
        | |- context [smtp_send_message w ?m] =>
            destruct (smtp_send_message w m) as [?e4|] eqn:?Hsend
        end]]];
  cbn [fst snd].

Ltac event_cases :=
  repeat match goal with
         | H : _ ∈ _ :: _ |- _ => apply elem_of_cons in H as [H|H]
         | H : _ ∈ [] |- _ => by apply elem_of_nil in H
         | H : EvLogin _ _ = _ |- _ => inversion H; clear H; subst
         | H : EvSendMessage _ = _ |- _ => inversion H; clear H; subst
         | H : EvQuit = _ |- _ => inversion H; clear H; subst
         | H : EvGenerate _ _ = _ |- _ => inversion H; clear H; subst
         end.



(** ** The mailer *)



(** [X4] The account's credentials go out only on a connection on which
    STARTTLS went through, and a message is handed over only after the login
    went through; the login uses SMTP_USER and SMTP_PASS. *)
Theorem credentials_only_after_starttls cfg w body :
  (∀ user password,
      EvLogin user password ∈ (send_email cfg w body).1 →
      smtp_connect w (SMTP_HOST cfg) (SMTP_PORT cfg) = None
      ∧ smtp_starttls w = None
      ∧ user = SMTP_USER cfg ∧ password = SMTP_PASS cfg)
  ∧ (∀ m,
      EvSendMessage m ∈ (send_email cfg w body).1 →
      smtp_starttls w = None
      ∧ smtp_login w (SMTP_USER cfg) (SMTP_PASS cfg) = None).
Proof.
  rewrite send_email_trace, smtp_session_unfold. cbv zeta.
  destruct (configured cfg); [|split; intros; event_cases].
  session_cases cfg w; split; intros; event_cases; done.
Qed.

Lemma credentials_only_after_starttls_witness :
  smtp_starttls world_refusing_login = None
  ∧ smtp_login world_refusing_login (lit "bot@example.org") (lit "secret")
    = Some SMTPAuthenticationError.
Proof.
  destruct (proj1 (credentials_only_after_starttls cfg_account_only
                     world_refusing_login mail_body)
              (lit "bot@example.org") (lit "secret")) as (_ & H & _).
  - vm_compute. do 2 apply list_elem_of_further. apply list_elem_of_here.
  - split; [exact H | reflexivity].
Defined.








Lemma validate_EmailIn_Some EmailStr raw body :
  validate_EmailIn EmailStr raw = Some body →
  summary body = raw_summary raw
  ∧ Forall2 (λ r v, EmailStr r = Some v) (raw_recipients raw) (recipients body)
  ∧ subject body = default (Some (lit "Meeting Summary")) (raw_subject raw).
Proof.
  unfold validate_EmailIn.
  destruct (mapM EmailStr (raw_recipients raw)) as [rs|] eqn:Hm; [|done].
  intros [= <-]. split_and!; try done. by apply mapM_Some_1.
Qed.

(** [X8] Every message handed to the SMTP server carries the headers of the
    request: To is the addresses [EmailStr] returned for the recipients, in
    the order of the request and joined by ", "; From is FROM_EMAIL; Subject
    is the subject of the request, "Meeting Summary" when it was left out. *)
Theorem sent_message_headers EmailStr cfg w raw m :
  EvSendMessage m ∈ (handle EmailStr cfg w (POST_email raw)).1 →
  ∃ addresses,
    Forall2 (λ r v, EmailStr r = Some v) (raw_recipients raw) addresses
    ∧ msg_To m = join (lit ", ") addresses
    ∧ msg_From m = FROM_EMAIL cfg
    ∧ msg_Subject m = default (Some (lit "Meeting Summary")) (raw_subject raw).
Proof.
  cbn [handle]. destruct (validate_EmailIn EmailStr raw) as [body|] eqn:Hv.
  - destruct (validate_EmailIn_Some _ _ _ Hv) as (_ & Hrs & Hsubj).
    cbn [respond fst]. rewrite send_email_trace.
    destruct (configured cfg); [|intros H; event_cases].
    intros ->%smtp_session_sends. exists (recipients body).
    split_and!; try done.
  - cbn. intros H. event_cases.
Qed.

Lemma sent_message_headers_witness :
  ∃ addresses,
    Forall2 (λ r v, one_at_sign r = Some v) (raw_recipients mail_raw) addresses
    ∧ msg_To mail_sent = join (lit ", ") addresses
    ∧ msg_From mail_sent = FROM_EMAIL cfg_account_only
    ∧ msg_Subject mail_sent = Some (lit "Meeting Summary").
Proof.
  apply (sent_message_headers one_at_sign cfg_account_only (world_answering None)
           mail_raw mail_sent).
  vm_compute. do 3 apply list_elem_of_further. apply list_elem_of_here.
Defined.



(** ** The summarising handlers *)

(** [X10] An exception of the provider is not caught and the call is not
    repeated: after the one call, [summarize] and [upload_and_summarize]
    fail with that exception, which the boundary turns into a server
    fault. *)
Theorem provider_failure_is_server_fault cfg w e :
  (∀ body,
      generate_content w (GEMINI_MODEL cfg)
        (user_content_of (prompt body) (transcript body)) = inl e →
      respond (summarize cfg w body)
      = ([EvGenerate (GEMINI_MODEL cfg)
            (user_content_of (prompt body) (transcript body))],
         ServerFault500 e))
  ∧ (∀ file p t,
      utf8_decode Ignore file = inr t →
      generate_content w (GEMINI_MODEL cfg) (user_content_of p t) = inl e →
      respond (upload_and_summarize cfg w file p)
      = ([EvGenerate (GEMINI_MODEL cfg) (user_content_of p t)], ServerFault500 e)).
Proof.
  assert (Hs : ∀ body,
             generate_content w (GEMINI_MODEL cfg)
               (user_content_of (prompt body) (transcript body)) = inl e →
             respond (summarize cfg w body)
             = ([EvGenerate (GEMINI_MODEL cfg)
                   (user_content_of (prompt body) (transcript body))],
                ServerFault500 e)).
  { intros body Hg. unfold respond, summarize, call, mbind, IO_bind. cbn [fst snd].
    by rewrite Hg. }
  split; [exact Hs|].
  intros file p t Ht Hg. rewrite (upload_as_summarize _ _ _ _ _ Ht).
  by apply (Hs {| transcript := t; prompt := p |}).
Qed.

Lemma provider_failure_is_server_fault_witness :
  respond (summarize cfg_account_only world_provider_down scenario_body)
  = ([EvGenerate (lit "gemini-1.5-flash")
        (user_content_of (lit "List action items") (lit "Alice: ship by Friday."))],
     ServerFault500 ServiceUnavailable).
Proof.
  apply (proj1 (provider_failure_is_server_fault cfg_account_only
                  world_provider_down ServiceUnavailable) scenario_body).
  reflexivity.
Defined.

Lemma summarize_response_inv cfg w body j :
  (summarize cfg w body).2 = inr j →
  ∃ r s, generate_content w (GEMINI_MODEL cfg)
           (user_content_of (prompt body) (transcript body)) = inr r
         ∧ (summary_text_of r).2 = inr s
         ∧ j = [("summary", JString s)].
Proof.
  unfold summarize, call, mbind, IO_bind. cbn [fst snd].
  destruct (generate_content _ _ _) as [e|r]; [done|]. cbn [fst snd].
  destruct (summary_text_of r) as [tr [e|s]] eqn:Hst; cbn [fst snd]; [done|].
  intros [= <-]. exists r, s. by rewrite Hst.
Qed.

Lemma summary_text_of_inv r s :
  (summary_text_of r).2 = inr s →
  s = sentinel ∨ ∃ text, resp_text r = Some (PStr text) ∧ text ≠ [] ∧ s = strip text.
Proof.
  unfold summary_text_of, getattr_text.
  destruct (resp_text r) as [[|text|z]|]; cbn.
  - intros [= <-]. by left.
  - case_bool_decide as Ht; cbn; intros [= <-]; [by left|]. right. eauto.
  - destruct (negb _); cbn; [done|]. intros [= <-]. by left.
  - intros [= <-]. by left.
Qed.

(** [X11] A summary that comes back from [/summarize] or
    [/upload_and_summarize] neither begins nor ends with whitespace: it is
    the sentinel, or the provider's text with whitespace, and nothing else,
    cut off at both ends. *)
Theorem summary_is_trimmed EmailStr cfg w req s :
  (handle EmailStr cfg w req).2 = Response200 [("summary", JString s)] →
  (∀ c, head s = Some c → isspace c = false)
  ∧ (∀ c, last s = Some c → isspace c = false)
  ∧ (s = lit "[no summary returned]"
     ∨ ∃ model content r text before after,
         generate_content w model content = inr r
         ∧ resp_text r = Some (PStr text)
         ∧ text = before ++ s ++ after
         ∧ Forall (λ c, isspace c = true) before
         ∧ Forall (λ c, isspace c = true) after).
Proof.
  assert (Hsum : ∀ body,
             (respond (summarize cfg w body)).2 = Response200 [("summary", JString s)] →
             (∀ c, head s = Some c → isspace c = false)
             ∧ (∀ c, last s = Some c → isspace c = false)
             ∧ (s = lit "[no summary returned]"
                ∨ ∃ model content r text before after,
                    generate_content w model content = inr r
                    ∧ resp_text r = Some (PStr text)
                    ∧ text = before ++ s ++ after
                    ∧ Forall (λ c, isspace c = true) before
                    ∧ Forall (λ c, isspace c = true) after)).
  { intros body. unfold respond. cbn [snd].
    destruct (summarize cfg w body).2 as [e|j] eqn:Hj; [done|].
    intros [= ->].
    destruct (summarize_response_inv _ _ _ _ Hj) as (r & s' & Hg & Hs & [= <-]).
    destruct (summary_text_of_inv _ _ Hs) as [-> | (text & Hr & _ & ->)].
    { split_and!; [by intros c [= <-] | by intros c [= <-] | by left]. }
    destruct (strip_spec text) as (l & r' & Htext & Hl & Hr' & Hhead & Hlast).
    split_and!; [done | done |]. right.
    exists (GEMINI_MODEL cfg), (user_content_of (prompt body) (transcript body)),
      r, text, l, r'. by split_and!. }
  destruct req as [|body|file p|raw]; cbn [handle].
  - done.
  - apply Hsum.
  - destruct (utf8_decode_ignore_total file) as [t Ht].
    rewrite (upload_as_summarize _ _ _ _ _ Ht). apply Hsum.
  - destruct (validate_EmailIn EmailStr raw) as [body|]; [|done].
    unfold respond. cbn [snd]. destruct (configured cfg) eqn:Hc.
    + rewrite (send_email_configured _ _ _ Hc). cbv zeta. cbn [snd].
      destruct (smtp_session _ _ _).2 as [e|u]; [|done].
      by destruct (exn_is_Exception e).
    + by rewrite (send_email_unconfigured _ _ _ Hc).
Qed.

Lemma summary_is_trimmed_witness : isspace 104 = false.
Proof.
  apply (proj1 (summary_is_trimmed one_at_sign cfg_account_only
                  (world_answering (Some (PStr (lit " hi "))))
                  (POST_summarize scenario_body) (lit "hi") eq_refl) 104%N).
  reflexivity.
Defined.

(** [X12] Instruction and transcript are put into the provider input as they
    are, so the mark between them can come from either: moving a piece of
    the instruction that follows a mark over to the transcript changes
    neither the call to the provider nor the answer. *)
Theorem instruction_transcript_boundary cfg w p x t :
  user_content_of (p ++ transcript_mark ++ x) t
  = user_content_of p (x ++ transcript_mark ++ t)
  ∧ summarize cfg w {| transcript := t; prompt := p ++ transcript_mark ++ x |}
    = summarize cfg w {| transcript := x ++ transcript_mark ++ t; prompt := p |}.
Proof.
  assert (H : user_content_of (p ++ transcript_mark ++ x) t
              = user_content_of p (x ++ transcript_mark ++ t)).
  { unfold user_content_of. fold transcript_mark. by rewrite <- !app_assoc. }
  split; [exact H|]. unfold summarize. cbn [prompt transcript]. by rewrite H.
Qed.

(** ** Uploads *)

Lemma utf8_decode_encode_app errors s bs :
  Forall (λ c, is_scalar c = true) s →
  utf8_decode errors (utf8_encode s ++ bs)
  = match utf8_decode errors bs with
    | inl e => inl e
    | inr t => inr (s ++ t)
    end.
Proof.
  induction 1 as [|c s Hc _ IH].
  - cbn. by destruct (utf8_decode errors bs).
  - unfold utf8_encode in *. cbn [mbind list_bind]. rewrite <- app_assoc.
    rewrite utf8_decode_encode_char by done.
    change (mbind utf8_encode_char s) with (s ≫= utf8_encode_char).
    rewrite IH. by destruct (utf8_decode errors bs).
Qed.

Lemma utf8_decode_length errors (bs : list byte) s :
  utf8_decode errors bs = inr s → (length s ≤ length bs)%nat.
Proof.
  revert s. induction bs as [|b r1 IH1 IH2 IH3 IH4] using bytes_ind4.
  { by intros s [= <-]. }
  intros s. decoder_cases;
    try specialize (IH2 _ _ eq_refl);
    try specialize (IH3 _ _ _ eq_refl);
    try specialize (IH4 _ _ _ _ eq_refl).
  all: try (destruct errors; cbn [on_error]; [done|]).
  all: try (intros [= <-]; cbn; lia).
  all: try (intros Hd;
            match goal with IH : ∀ s, utf8_decode _ ?r = inr s → _ |- _ =>
              specialize (IH _ Hd) end; cbn [length] in *; lia).
  all: intros (s' & Hd & ->)%emit_inr;
    match goal with IH : ∀ s, utf8_decode _ ?r = inr s → _,
                    Hd : utf8_decode _ ?r = inr _ |- _ =>
      specialize (IH _ Hd) end; cbn [length] in *; lia.
Qed.

Section Truncated.
Local Open Scope N_scope.

Lemma utf8_decode_cut1 b :
  194 ≤ Byte.to_N b < 245 → utf8_decode Ignore [b] = inr [].
Proof. intros H. cbn [utf8_decode]. by goal_cmp_cases. Qed.

Lemma utf8_decode_cut2 b b2 :
  224 ≤ Byte.to_N b < 245 → 128 ≤ Byte.to_N b2 < 192 →
  (Byte.to_N b = 224 → 160 ≤ Byte.to_N b2) →
  (Byte.to_N b = 237 → Byte.to_N b2 < 160) →
  (Byte.to_N b = 240 → 144 ≤ Byte.to_N b2) →
  (Byte.to_N b = 244 → Byte.to_N b2 < 144) →
  utf8_decode Ignore [b; b2] = inr [].
Proof.
  intros H H2 Ha Hb Hc Hd. remember [b2] as r1 eqn:E. cbn [utf8_decode].
  goal_cmp_cases; subst r1; cbv beta match zeta; unfold bad2_of3, bad2_of4, is_cont;
    by goal_cmp_cases.
Qed.

Lemma utf8_decode_cut3 b b2 b3 :
  240 ≤ Byte.to_N b < 245 → 128 ≤ Byte.to_N b2 < 192 →
  (Byte.to_N b = 240 → 144 ≤ Byte.to_N b2) →
  (Byte.to_N b = 244 → Byte.to_N b2 < 144) →
  128 ≤ Byte.to_N b3 < 192 →
  utf8_decode Ignore [b; b2; b3] = inr [].
Proof.
  intros H H2 Hc Hd H3. remember [b2; b3] as r1 eqn:E. cbn [utf8_decode].
  goal_cmp_cases; subst r1; cbv beta match zeta; unfold bad2_of4, is_cont;
    by goal_cmp_cases.
Qed.

Lemma utf8_decode_cut_char c k :
  is_scalar c = true →
  (k < length (utf8_encode_char c))%nat →
  utf8_decode Ignore (take k (utf8_encode_char c)) = inr [].
Proof.
  unfold is_scalar, utf8_encode_char. intros Hc.
  destruct (N.ltb_spec c 128) as [H1|H1].
  { cbn [length]. intros Hk. by replace k with 0%nat by lia. }
  destruct (N.ltb_spec c 2048) as [H2|H2].
  { cbn [length]. intros Hk. rewrite enc_lead2, enc_cont by done.
    destruct k as [|[|k]]; [done| |lia]. cbn [take].
    apply utf8_decode_cut1. rewrite to_N_byte_of by div_lia. div_lia. }
  destruct (N.ltb_spec c 65536) as [H3|H3].
  { cbn [length]. intros Hk. rewrite enc_lead3, !enc_cont, shiftr_6 by done.
    assert (Hs : c < 55296 ∨ 57344 ≤ c).
    { destruct (N.ltb_spec c 55296); [by left|]. right.
      cbn [orb] in Hc. apply andb_true_iff in Hc as [Hc _]. by apply N.leb_le. }
    destruct k as [|[|[|k]]]; [done| | |lia]; cbn [take].
    - apply utf8_decode_cut1. rewrite to_N_byte_of by div_lia. div_lia.
    - apply utf8_decode_cut2; rewrite ?to_N_byte_of by div_lia; div_lia. }
  assert (H4 : c < 1114112).
  { destruct (N.ltb_spec c 55296); [lia|].
    cbn [orb] in Hc. apply andb_true_iff in Hc as [_ Hc]. by apply N.ltb_lt. }
  cbn [length]. intros Hk.
  rewrite enc_lead4, !enc_cont, shiftr_6, shiftr_12 by done.
  destruct k as [|[|[|[|k]]]]; [done| | | |lia]; cbn [take].
  - apply utf8_decode_cut1. rewrite to_N_byte_of by div_lia. div_lia.
  - apply utf8_decode_cut2; rewrite ?to_N_byte_of by div_lia; div_lia.
  - apply utf8_decode_cut3; rewrite ?to_N_byte_of by div_lia; div_lia.
Qed.

End Truncated.

Section Canonical.
Local Open Scope N_scope.

Lemma byte_of_to_N b : byte_of (Byte.to_N b) = b.
Proof. unfold byte_of. by rewrite Byte.of_to_N. Qed.

Lemma byte_of_eq n b : n = Byte.to_N b → byte_of n = b.
Proof. intros ->. apply byte_of_to_N. Qed.

Lemma utf8_encode_char_cp1 b :
  (Byte.to_N b <? 128) = true → utf8_encode_char (Byte.to_N b) = [b].
Proof. intros H. unfold utf8_encode_char. by rewrite H, byte_of_to_N. Qed.

Lemma utf8_encode_char_cp2 b b2 :
  (Byte.to_N b <? 194) = false → (Byte.to_N b <? 224) = true →
  is_cont (Byte.to_N b2) = true →
  utf8_encode_char (cp2 (Byte.to_N b) (Byte.to_N b2)) = [b; b2].
Proof.
  unfold is_cont, utf8_encode_char. rewrite cp2_arith. intros H1 H2 H3.
  cmp_cases. clear H1 H2 H3.
  goal_cmp_cases; try (exfalso; div_lia).
  rewrite enc_lead2, enc_cont by div_lia.
  f_equal; [|f_equal]; apply byte_of_eq; div_lia.
Qed.

Lemma utf8_encode_char_cp3 b b2 b3 :
  (Byte.to_N b <? 224) = false → (Byte.to_N b <? 240) = true →
  bad2_of3 (Byte.to_N b) (Byte.to_N b2) = false →
  is_cont (Byte.to_N b3) = true →
  utf8_encode_char (cp3 (Byte.to_N b) (Byte.to_N b2) (Byte.to_N b3)) = [b; b2; b3].
Proof.
  unfold bad2_of3, is_cont, utf8_encode_char. rewrite cp3_arith. intros H1 H2 H3 H4.
  cmp_cases; clear H1 H2 H3 H4.
  all: goal_cmp_cases; try (exfalso; div_lia).
  all: rewrite enc_lead3, !enc_cont, shiftr_6 by div_lia.
  all: f_equal; [|f_equal; [|f_equal]]; apply byte_of_eq; div_lia.
Qed.

Lemma utf8_encode_char_cp4 b b2 b3 b4 :
  (Byte.to_N b <? 240) = false → (Byte.to_N b <? 245) = true →
  bad2_of4 (Byte.to_N b) (Byte.to_N b2) = false →
  is_cont (Byte.to_N b3) = true → is_cont (Byte.to_N b4) = true →
  utf8_encode_char (cp4 (Byte.to_N b) (Byte.to_N b2) (Byte.to_N b3) (Byte.to_N b4))
  = [b; b2; b3; b4].
Proof.
  unfold bad2_of4, is_cont, utf8_encode_char. rewrite cp4_arith.
  intros H1 H2 H3 H4 H5.
  cmp_cases; clear H1 H2 H3 H4 H5.
  all: goal_cmp_cases; try (exfalso; div_lia).
  all: rewrite enc_lead4, !enc_cont, shiftr_6, shiftr_12 by div_lia.
  all: f_equal; [|f_equal; [|f_equal; [|f_equal]]]; apply byte_of_eq; div_lia.
Qed.

End Canonical.

(** The only input the strict decoder accepts for a string is its
    encoding. *)
Lemma utf8_encode_decode_strict (bs : list byte) s :
  utf8_decode Strict bs = inr s → utf8_encode s = bs.
Proof.
  revert s. induction bs as [|b r1 IH1 IH2 IH3 IH4] using bytes_ind4.
  { by intros s [= <-]. }
  intros s. decoder_cases; cbn [on_error]; try done;
    try specialize (IH2 _ _ eq_refl);
    try specialize (IH3 _ _ _ eq_refl);
    try specialize (IH4 _ _ _ _ eq_refl).
  all: intros (s' & Hd & ->)%emit_inr;
    unfold utf8_encode in *; cbn [mbind list_bind];
    change (mbind utf8_encode_char s') with (s' ≫= utf8_encode_char).
  - rewrite utf8_encode_char_cp1 by done. cbn [app]. by rewrite (IH1 _ Hd).
  - rewrite utf8_encode_char_cp2 by done. cbn [app]. by rewrite (IH2 _ Hd).
  - rewrite utf8_encode_char_cp3 by done. cbn [app]. by rewrite (IH3 _ Hd).
  - rewrite utf8_encode_char_cp4 by (try done; by apply negb_false_iff).
    cbn [app]. by rewrite (IH4 _ Hd).
Qed.

(** One step of the decoder, with the recursive calls left folded. *)
Lemma utf8_decode_cons errors b r1 :
  utf8_decode errors (b :: r1)
  = let c := Byte.to_N b in
    if (c <? 128)%N then emit c (utf8_decode errors r1)
    else if (c <? 194)%N then on_error errors msg_start (utf8_decode errors r1)
    else if (c <? 224)%N then
      match r1 with
      | [] => on_error errors msg_end (inr [])
      | b2 :: r2 =>
        let c2 := Byte.to_N b2 in
        if is_cont c2 then emit (cp2 c c2) (utf8_decode errors r2)
        else on_error errors msg_cont (utf8_decode errors r1)
      end
    else if (c <? 240)%N then
      match r1 with
      | [] => on_error errors msg_end (inr [])
      | b2 :: r2 =>
        let c2 := Byte.to_N b2 in
        if bad2_of3 c c2 then on_error errors msg_cont (utf8_decode errors r1)
        else
          match r2 with
          | [] => on_error errors msg_end (inr [])
          | b3 :: r3 =>
            let c3 := Byte.to_N b3 in
            if is_cont c3 then emit (cp3 c c2 c3) (utf8_decode errors r3)
            else on_error errors msg_cont (utf8_decode errors r2)
          end
      end
    else if (c <? 245)%N then
      match r1 with
      | [] => on_error errors msg_end (inr [])
      | b2 :: r2 =>
        let c2 := Byte.to_N b2 in
        if bad2_of4 c c2 then on_error errors msg_cont (utf8_decode errors r1)
        else
          match r2 with
          | [] => on_error errors msg_end (inr [])
          | b3 :: r3 =>
            let c3 := Byte.to_N b3 in
            if negb (is_cont c3) then on_error errors msg_cont (utf8_decode errors r2)
            else
              match r3 with
              | [] => on_error errors msg_end (inr [])
              | b4 :: r4 =>
                let c4 := Byte.to_N b4 in
                if is_cont c4 then emit (cp4 c c2 c3 c4) (utf8_decode errors r4)
                else on_error errors msg_cont (utf8_decode errors r3)
              end
          end
      end
    else on_error errors msg_start (utf8_decode errors r1).
Proof. destruct r1 as [|b2 [|b3 [|b4 r4]]]; reflexivity. Qed.

(** Bad bytes do not swallow what follows them: when the rest of the input
    does not start with a continuation byte, it is decoded on its own. *)
Lemma utf8_decode_ignore_app (bs rest : list byte) a t :
  (∀ b, head rest = Some b → is_cont (Byte.to_N b) = false) →
  utf8_decode Ignore bs = inr a →
  utf8_decode Ignore rest = inr t →
  utf8_decode Ignore (bs ++ rest) = inr (a ++ t).
Proof.
  intros Hclean. destruct rest as [|b' rest'].
  { intros Ha [= <-]. by rewrite !app_nil_r. }
  specialize (Hclean b' eq_refl). revert a.
  assert (Hbad3 : ∀ c, bad2_of3 c (Byte.to_N b') = true).
  { intros c. unfold bad2_of3. by rewrite Hclean. }
  assert (Hbad4 : ∀ c, bad2_of4 c (Byte.to_N b') = true).
  { intros c. unfold bad2_of4. by rewrite Hclean. }
  induction bs as [|b r1 IH1 IH2 IH3 IH4] using bytes_ind4.
  { by intros a [= <-]. }
  assert (Hemit : ∀ c r a',
            (∀ a, utf8_decode Ignore r = inr a →
                  utf8_decode Ignore (b' :: rest') = inr t →
                  utf8_decode Ignore (r ++ b' :: rest') = inr (a ++ t)) →
            emit c (utf8_decode Ignore r) = inr a' →
            utf8_decode Ignore (b' :: rest') = inr t →
            emit c (utf8_decode Ignore (r ++ b' :: rest')) = inr (a' ++ t)).
  { intros c r a' IH (s' & Hd & ->)%emit_inr Ht. by rewrite (IH _ Hd Ht). }
  intros a. cbn [app].
  rewrite (utf8_decode_cons _ b r1), (utf8_decode_cons _ b (r1 ++ b' :: rest')).
  cbv zeta.
  destruct (Byte.to_N b <? 128)%N; [by apply Hemit|].
  destruct (Byte.to_N b <? 194)%N; [by apply IH1|].
  destruct (Byte.to_N b <? 224)%N.
  { destruct r1 as [|b2 r2]; cbn [app on_error].
    - rewrite Hclean. by intros [= <-].
    - destruct (is_cont (Byte.to_N b2)); [apply Hemit, (IH2 _ _ eq_refl)|apply IH1]. }
  destruct (Byte.to_N b <? 240)%N.
  { destruct r1 as [|b2 r2]; cbn [app on_error].
    - rewrite Hbad3. by intros [= <-].
    - destruct (bad2_of3 _ (Byte.to_N b2)); [apply IH1|].
      destruct r2 as [|b3 r3]; cbn [app on_error].
      + rewrite Hclean. by intros [= <-].
      + destruct (is_cont (Byte.to_N b3));
          [apply Hemit, (IH3 _ _ _ eq_refl)|apply (IH2 _ _ eq_refl)]. }
  destruct (Byte.to_N b <? 245)%N; [|by apply IH1].
  destruct r1 as [|b2 r2]; cbn [app on_error].
  - rewrite Hbad4. by intros [= <-].
  - destruct (bad2_of4 _ (Byte.to_N b2)); [apply IH1|].
    destruct r2 as [|b3 r3]; cbn [app on_error].
    + rewrite Hclean. by intros [= <-].
    + destruct (is_cont (Byte.to_N b3)); cbn [negb]; [|apply (IH2 _ _ eq_refl)].
      destruct r3 as [|b4 r4]; cbn [app on_error].
      * rewrite Hclean. by intros [= <-].
      * destruct (is_cont (Byte.to_N b4));
          [apply Hemit, (IH4 _ _ _ _ eq_refl)|apply (IH3 _ _ _ eq_refl)].
Qed.

Lemma utf8_encode_char_head c :
  is_scalar c = true →
  ∃ b tl, utf8_encode_char c = b :: tl ∧ is_cont (Byte.to_N b) = false.
Proof.
  unfold is_scalar, utf8_encode_char, is_cont. intros Hc.
  assert (Hs : (c < 1114112)%N).
  { destruct (N.ltb_spec c 55296); [lia|].
    cbn [orb] in Hc. apply andb_true_iff in Hc as [_ Hc]. by apply N.ltb_lt. }
  clear Hc.
  destruct (N.ltb_spec c 128) as [H1|H1];
    [|destruct (N.ltb_spec c 2048) as [H2|H2];
      [|destruct (N.ltb_spec c 65536) as [H3|H3]]];
    eexists _, _; (split; [reflexivity|]);
    rewrite ?enc_lead2, ?enc_lead3, ?enc_lead4 by done;
    rewrite to_N_byte_of by div_lia;
    apply andb_false_iff; rewrite N.leb_gt, N.ltb_ge; div_lia.
Qed.

Lemma utf8_encode_head s bs :
  Forall (λ c, is_scalar c = true) s → s ≠ [] →
  ∀ b, head (utf8_encode s ++ bs) = Some b → is_cont (Byte.to_N b) = false.
Proof.
  intros Hs Hne. destruct Hs as [|c s Hc _]; [done|].
  destruct (utf8_encode_char_head c Hc) as (b0 & tl & Hb & Hcont).
  unfold utf8_encode. cbn [mbind list_bind]. rewrite Hb. cbn. by intros b [= <-].
Qed.

Lemma utf8_decode_ascii errors (bs : list byte) :
  Forall (λ b, (Byte.to_N b < 128)%N) bs →
  utf8_decode errors bs = inr (Byte.to_N <$> bs).
Proof.
  induction 1 as [|b bs Hb _ IH]; [done|].
  rewrite utf8_decode_cons. cbv zeta.
  rewrite (proj2 (N.ltb_lt _ _) Hb), IH. done.
Qed.

(** [X13] Well-formed text inside an upload reaches the provider intact,
    whatever bytes come before and after it: the transcript is what is left
    of the bytes before, then the text, then what is left of the bytes
    after. *)
Theorem upload_keeps_wellformed_text cfg w before s after p :
  Forall (λ c, is_scalar c = true) s → s ≠ [] →
  ∃ a t,
    utf8_decode Ignore before = inr a
    ∧ utf8_decode Ignore after = inr t
    ∧ upload_and_summarize cfg w (before ++ utf8_encode s ++ after) p
      = summarize cfg w {| transcript := a ++ s ++ t; prompt := p |}.
Proof.
  intros Hs Hne.
  destruct (utf8_decode_ignore_total before) as [a Ha].
  destruct (utf8_decode_ignore_total after) as [t Ht].
  exists a, t. split_and!; try done.
  apply upload_as_summarize.
  apply utf8_decode_ignore_app; [by apply utf8_encode_head | done |].
  by rewrite utf8_decode_encode_app, Ht.
Qed.

Lemma upload_keeps_wellformed_text_witness :
  ∃ a t,
    utf8_decode Ignore [xe2; x82] = inr a
    ∧ utf8_decode Ignore [xff] = inr t
    ∧ upload_and_summarize cfg_account_only (world_answering None)
        ([xe2; x82] ++ utf8_encode [233; 8364]%N ++ [xff]) (lit "P")
      = summarize cfg_account_only (world_answering None)
          {| transcript := a ++ [233; 8364]%N ++ t; prompt := lit "P" |}.
Proof.
  apply (upload_keeps_wellformed_text cfg_account_only (world_answering None)
           [xe2; x82] [233; 8364]%N [xff] (lit "P")).
  - by repeat constructor.
  - discriminate.
Defined.

(** [X14] An upload that breaks off inside its last character is summarised
    as the text before that character. *)
Theorem upload_cut_inside_character cfg w s c k p :
  Forall (λ c, is_scalar c = true) s → is_scalar c = true →
  (k < length (utf8_encode_char c))%nat →
  upload_and_summarize cfg w (utf8_encode s ++ take k (utf8_encode_char c)) p
  = summarize cfg w {| transcript := s; prompt := p |}.
Proof.
  intros Hs Hc Hk. apply upload_as_summarize.
  rewrite utf8_decode_encode_app by done.
  rewrite utf8_decode_cut_char by done. by rewrite app_nil_r.
Qed.

Lemma upload_cut_inside_character_witness :
  upload_and_summarize cfg_account_only (world_answering None)
    (utf8_encode (lit "caf") ++ take 2 (utf8_encode_char 8364)) (lit "P")
  = summarize cfg_account_only (world_answering None)
      {| transcript := lit "caf"; prompt := lit "P" |}.
Proof.
  apply (upload_cut_inside_character cfg_account_only (world_answering None)
           (lit "caf") 8364%N 2 (lit "P")).
  - by repeat constructor.
  - reflexivity.
  - vm_compute. lia.
Defined.

(** [X15] The transcript has at most as many characters as the upload has
    bytes, and an ASCII upload is passed on as it is. *)
Theorem upload_ascii_unchanged cfg w file p :
  (∃ t, utf8_decode Ignore file = inr t
        ∧ (length t ≤ length file)%nat
        ∧ upload_and_summarize cfg w file p
          = summarize cfg w {| transcript := t; prompt := p |})
  ∧ (Forall (λ b, (Byte.to_N b < 128)%N) file →
     upload_and_summarize cfg w file p
     = summarize cfg w {| transcript := Byte.to_N <$> file; prompt := p |}).
Proof.
  split.
  - destruct (utf8_decode_ignore_total file) as [t Ht]. exists t.
    split_and!; [done | by apply (utf8_decode_length Ignore) |
                 by apply upload_as_summarize].
  - intros Hascii. by apply upload_as_summarize, utf8_decode_ascii.
Qed.

Lemma upload_ascii_unchanged_witness :
  upload_and_summarize cfg_account_only (world_answering None) [x41; x0a; x42] (lit "P")
  = summarize cfg_account_only (world_answering None)
      {| transcript := [65; 10; 66]%N; prompt := lit "P" |}.
Proof.
  apply (proj2 (upload_ascii_unchanged cfg_account_only (world_answering None)
                  [x41; x0a; x42] (lit "P"))).
  repeat constructor.
Defined.

(** [X16] Bytes are lost exactly on uploads that are not well-formed UTF-8:
    encoding the transcript gives the upload back if and only if the strict
    decoder accepts the upload. *)
Theorem upload_lossless_iff_wellformed cfg w file p :
  ∃ t, utf8_decode Ignore file = inr t
       ∧ upload_and_summarize cfg w file p
         = summarize cfg w {| transcript := t; prompt := p |}
       ∧ (utf8_encode t = file ↔ utf8_decode Strict file = inr t).
Proof.
  destruct (utf8_decode_ignore_total file) as [t Ht]. exists t.
  split_and!; [done | by apply upload_as_summarize |]. split.
  - intros <-. apply utf8_decode_encode.
    by apply (utf8_decode_scalar Ignore (utf8_encode t)).
  - apply utf8_encode_decode_strict.
Qed.

Lemma upload_lossless_iff_wellformed_witness :
  utf8_encode [65; 233]%N = [x41; xc3; xa9].
Proof.
  destruct (upload_lossless_iff_wellformed cfg_account_only (world_answering None)
              [x41; xc3; xa9] (lit "P")) as (t & Ht & _ & H).
  injection Ht as <-. apply H. reflexivity.
Defined.

(** ** Numerals *)













(** [X18] A request calls only the service of its handler, and the provider
    at most once: [/health] calls nothing, [/summarize] and
    [/upload_and_summarize] call the provider and never the SMTP server,
    [/email] calls the SMTP server and never the provider. *)
Theorem handlers_call_their_own_service EmailStr cfg w req :
  (length (filter (λ ev, is_generate ev = true) (handle EmailStr cfg w req).1) ≤ 1)%nat
  ∧ ∀ ev, ev ∈ (handle EmailStr cfg w req).1 →
      match req with
      | GET_health => False
      | POST_summarize _ | POST_upload_and_summarize _ _ => is_generate ev = true
      | POST_email _ => is_generate ev = false
      end.
Proof.
  destruct req as [|body|file p|raw]; cbn [handle respond fst].
  - split; [by vm_compute; lia|]. intros ev H. cbn in H. event_cases.
  - rewrite summarize_trace. split; [by vm_compute; lia|].
    intros ev ->%list_elem_of_singleton. done.
  - destruct (utf8_decode_ignore_total file) as [t Ht].
    rewrite (upload_as_summarize _ _ _ _ _ Ht), summarize_trace.
    split; [by vm_compute; lia|]. intros ev ->%list_elem_of_singleton. done.
  - destruct (validate_EmailIn EmailStr raw) as [body|]; unfold respond; cbn [fst].
    2:{ split; [by vm_compute; lia|]. intros ev H. event_cases. }
    rewrite send_email_trace, smtp_session_unfold. cbv zeta.
    destruct (configured cfg).
    2:{ split; [by vm_compute; lia|]. intros ev H. event_cases. }
    session_cases cfg w; (split; [by vm_compute; lia|]); intros ev H; event_cases; by subst.
Qed.

Lemma handlers_call_their_own_service_witness :
  is_generate (EvLogin (lit "bot@example.org") (lit "secret")) = false.
Proof.
  apply (proj2 (handlers_call_their_own_service one_at_sign cfg_account_only
                  (world_answering None) (POST_email mail_raw))
           (EvLogin (lit "bot@example.org") (lit "secret"))).
  vm_compute. do 2 apply list_elem_of_further. apply list_elem_of_here.
Defined.
